(** * simple_document_extractor.py: the format-dispatch extraction pipeline

    A shallow embedding of [DocumentExtractor] (the eight per-format handlers
    and [process_file]) and of the upload endpoint [extract_text], followed by
    the properties of the dispatch that the specification states.

    Conventions of the embedding:
    - a Python [str] is the list of its code points ([list N]); a [bytes]
      value is a [list byte];
    - a call that may raise has type [result A]: [Return a] or [Raise e];
      [try: ... except Exception as e: ...] is [try_except];
    - the parsing libraries (PyPDF2, python-docx, mammoth, pandas,
      python-pptx, BeautifulSoup) are not part of the program: their entry
      points are the fields of the record [Libs], and the objects they hand
      back are records of what the program observes of them;
    - the file system read by [open] is a finite map from paths to contents. *)

From Stdlib Require Import ZArith NArith List String Ascii Lia.
From Stdlib.Strings Require Import Byte.
From stdpp Require Import base decidable option list gmap.
Import ListNotations.
Local Open Scope N_scope.

(** ** Strings and bytes *)

Abbreviation str := (list N) (only parsing).
Abbreviation bytes := (list byte) (only parsing).
Abbreviation FS := (gmap (list N) (list byte)) (only parsing).
Abbreviation dict := (gmap (list N) (list N)) (only parsing).

(** A string literal of the source, as code points. *)
Definition lit (s : string) : str := map N_of_ascii (list_ascii_of_string s).
Arguments lit s%_string : simpl never.

(** The line feed: Python's ["\n"]. *)
Definition LF : N := 10.
Definition CR : N := 13.
Definition nl : str := [LF].

(** [sep.join(xs)]. *)
Fixpoint join (sep : str) (xs : list str) : str :=
  match xs with
  | [] => []
  | x :: rest =>
      match rest with
      | [] => x
      | _ :: _ => x ++ sep ++ join sep rest
      end
  end.

(** ** Exceptions *)

(** An instance of Python's [Exception]; [exc_str e] is [str(e)]. *)
Record exc := Exception { exc_str : str }.

Inductive result (A : Type) : Type :=
| Return (a : A)
| Raise (e : exc).
Arguments Return {A} a.
Arguments Raise {A} e.

#[global] Instance result_ret : MRet result := fun A a => Return a.
#[global] Instance result_bind : MBind result := fun A B k m =>
  match m with
  | Return a => k a
  | Raise e => Raise e
  end.

(** [try: body  except Exception as e: handler e]. *)
Definition try_except {A} (body : result A) (handler : exc -> result A) : result A :=
  match body with
  | Return a => Return a
  | Raise e => handler e
  end.

(** [for x in xs: acc = body acc x], stopping at the first exception. *)
Fixpoint for_each {A S : Type} (xs : list A) (acc : S) (body : S -> A -> result S)
  : result S :=
  match xs with
  | [] => mret acc
  | x :: rest => acc' ← body acc x; for_each rest acc' body
  end.

(** [xs[i]] on a Python list. *)
Definition getitem {A} (xs : list A) (i : nat) : result A :=
  match xs !! i with
  | Some x => Return x
  | None => Raise (Exception (lit "list index out of range"))
  end.

(** ** Decoding of text files

    [open(path, 'r', encoding='utf-8', errors='replace')] followed by
    [read()]: CPython's UTF-8 decoder with the [replace] error handler, then
    the universal-newlines translation of text mode. *)

Definition REPLACEMENT : N := 0xFFFD.

(** [IS_CONTINUATION_BYTE(ch)]: [(ch & 0xC0) == 0x80]. *)
Definition is_continuation_byte (ch : N) : bool := N.land ch 0xC0 =? 0x80.

(** The second byte of a three-byte sequence that cannot follow the lead
    [ch]: an overlong form after [0xE0], a surrogate after [0xED]. *)
Definition bad_second_of_3 (ch ch2 : N) : bool :=
  if ch2 <? 0xA0 then ch =? 0xE0 else ch =? 0xED.

(** The same for a four-byte sequence: overlong after [0xF0], beyond
    U+10FFFF after [0xF4]. *)
Definition bad_second_of_4 (ch ch2 : N) : bool :=
  if ch2 <? 0x90 then ch =? 0xF0 else ch =? 0xF4.

Definition decode2 (ch ch2 : N) : N :=
  (N.shiftl ch 6 + ch2) - (N.shiftl 0xC0 6 + 0x80).
Definition decode3 (ch ch2 ch3 : N) : N :=
  (N.shiftl ch 12 + N.shiftl ch2 6 + ch3)
  - (N.shiftl 0xE0 12 + N.shiftl 0x80 6 + 0x80).
Definition decode4 (ch ch2 ch3 ch4 : N) : N :=
  (N.shiftl ch 18 + N.shiftl ch2 12 + N.shiftl ch3 6 + ch4)
  - (N.shiftl 0xF0 18 + N.shiftl 0x80 12 + N.shiftl 0x80 6 + 0x80).

(** The decoder over byte values. Each error (invalid start byte, invalid
    continuation byte, unexpected end of data) writes one U+FFFD and resumes
    after the bytes the error covers. *)
Fixpoint utf8_decode_replace (s : list N) : str :=
  match s with
  | [] => []
  | ch :: s1 =>
    if ch <? 0x80 then ch :: utf8_decode_replace s1
    else if ch <? 0xE0 then
      if ch <? 0xC2 then REPLACEMENT :: utf8_decode_replace s1
      else
        match s1 with
        | [] => [REPLACEMENT]
        | ch2 :: s2 =>
          if negb (is_continuation_byte ch2)
          then REPLACEMENT :: utf8_decode_replace s1
          else decode2 ch ch2 :: utf8_decode_replace s2
        end
    else if ch <? 0xF0 then
      match s1 with
      | [] => [REPLACEMENT]
      | ch2 :: s2 =>
        if negb (is_continuation_byte ch2) || bad_second_of_3 ch ch2
        then REPLACEMENT :: utf8_decode_replace s1
        else
          match s2 with
          | [] => [REPLACEMENT]
          | ch3 :: s3 =>
            if negb (is_continuation_byte ch3)
            then REPLACEMENT :: utf8_decode_replace s2
            else decode3 ch ch2 ch3 :: utf8_decode_replace s3
          end
      end
    else if ch <? 0xF5 then
      match s1 with
      | [] => [REPLACEMENT]
      | ch2 :: s2 =>
        if negb (is_continuation_byte ch2) || bad_second_of_4 ch ch2
        then REPLACEMENT :: utf8_decode_replace s1
        else
          match s2 with
          | [] => [REPLACEMENT]
          | ch3 :: s3 =>
            if negb (is_continuation_byte ch3)
            then REPLACEMENT :: utf8_decode_replace s2
            else
              match s3 with
              | [] => [REPLACEMENT]
              | ch4 :: s4 =>
                if negb (is_continuation_byte ch4)
                then REPLACEMENT :: utf8_decode_replace s3
                else decode4 ch ch2 ch3 ch4 :: utf8_decode_replace s4
              end
          end
      end
    else REPLACEMENT :: utf8_decode_replace s1
  end.

(** Text mode with [newline=None]: ["\r\n"] and a lone ["\r"] become ["\n"]. *)
Fixpoint universal_newlines (s : str) : str :=
  match s with
  | [] => []
  | c :: s1 =>
    if c =? CR then
      LF :: match s1 with
            | [] => []
            | c2 :: s2 =>
              if c2 =? LF then universal_newlines s2 else universal_newlines s1
            end
    else c :: universal_newlines s1
  end.

(** What [read()] returns for a file of contents [b] opened in this mode. *)
Definition read_text (b : bytes) : str :=
  universal_newlines (utf8_decode_replace (map Byte.to_N b)).

(** ** [str.lower] and [os.path.splitext] *)

Definition ascii_lower (c : N) : N :=
  if (65 <=? c) && (c <=? 90) then c + 32 else c.

(** [s.lower()]: CPython lowers an all-ASCII string byte by byte and hands
    any other string to the Unicode case tables, here [unicode_lower]. *)
Definition lower (unicode_lower : str -> str) (s : str) : str :=
  if forallb (fun c => c <? 128) s then map ascii_lower s else unicode_lower s.

(** [p.rfind(c)]: the index of the last [c] in [p], or [-1]. *)
Fixpoint rfind_from (c : N) (p : str) (i last : Z) : Z :=
  match p with
  | [] => last
  | x :: rest => rfind_from c rest (i + 1)%Z (if x =? c then i else last)
  end.
Definition rfind (c : N) (p : str) : Z := rfind_from c p 0%Z (-1)%Z.

(** The slices [p[:i]], [p[i:]] and [p[i:i+1]] for [0 <= i]. *)
Definition slice_to (p : str) (i : Z) : str := take (Z.to_nat i) p.
Definition slice_from (p : str) (i : Z) : str := drop (Z.to_nat i) p.
Definition slice_one (p : str) (i : Z) : str := take 1 (drop (Z.to_nat i) p).

Definition sep : N := 47.     (* '/' *)
Definition extsep : N := 46.  (* '.' *)

(** The [while filenameIndex < dotIndex] loop of [genericpath._splitext],
    run for the [n] indices that remain: [true] when it meets a character
    that is not a dot (the loop then returns the split). *)
Fixpoint has_non_dot (p : str) (filenameIndex : Z) (n : nat) : bool :=
  match n with
  | O => false
  | S n' =>
    if bool_decide (slice_one p filenameIndex ≠ [extsep]) then true
    else has_non_dot p (filenameIndex + 1)%Z n'
  end.

(** [os.path.splitext(p)] of [posixpath]. *)
Definition splitext (p : str) : str * str :=
  let sepIndex := rfind sep p in
  let dotIndex := rfind extsep p in
  if (sepIndex <? dotIndex)%Z
     && has_non_dot p (sepIndex + 1)%Z (Z.to_nat (dotIndex - (sepIndex + 1)))
  then (slice_to p dotIndex, slice_from p dotIndex)
  else (p, []).

(** ** The objects the libraries return *)

Module PyPDF2.
Record PageObject := { extract_text : result str }.
Record PdfReader := { pages : list PageObject }.
End PyPDF2.

Module docx.
Record Paragraph := { text : str }.
Record Document := { paragraphs : list Paragraph }.
End docx.

Module mammoth.
Record Result := { value : str }.
End mammoth.

Module pd.
Record DataFrame := { to_string : result str }.
End pd.

Module pptx.
(** [has_text] is [hasattr(shape, "text")]. *)
Record Shape := { has_text : bool; text : result str }.
Record Slide := { shapes : list Shape }.
Record Presentation := { slides : list Slide }.
End pptx.

Module bs4.
Record BeautifulSoup := { get_text : result str }.
End bs4.

(** The entry points of the libraries and of the interpreter that the
    program calls. A library that is given a path opens the file itself, so
    it sees the file system. *)
Record Libs := {
  PdfReader : bytes -> result PyPDF2.PdfReader;
  Document : FS -> str -> result docx.Document;
  extract_raw_text : bytes -> result mammoth.Result;
  read_csv : FS -> str -> result pd.DataFrame;
  (** [pd.read_excel(path, sheet_name=None)]: the sheets in stored order. *)
  read_excel : FS -> str -> result (list (str * pd.DataFrame));
  Presentation : FS -> str -> result pptx.Presentation;
  (** [BeautifulSoup(markup, 'html.parser')]. *)
  BeautifulSoup : str -> result bs4.BeautifulSoup;
  (** [str(e)] of the [OSError] that [open] raises on a path it cannot open. *)
  open_error : str -> str;
  (** The Unicode case tables behind [str.lower]. *)
  unicode_lower : str -> str;
}.

(** ** The class [DocumentExtractor] *)

Module DocumentExtractor.

Section Handlers.
Variable L : Libs.
Variable fs : FS.

(** [open(file_path, 'rb')] and the contents then read from it. *)
Definition open_rb (file_path : str) : result bytes :=
  match fs !! file_path with
  | Some b => Return b
  | None => Raise (Exception (open_error L file_path))
  end.

(** [open(file_path, 'r', encoding='utf-8', errors='replace')] and
    [file.read()]. *)
Definition open_read_text (file_path : str) : result str :=
  b ← open_rb file_path; mret (read_text b).

Definition pdf_body (file_path : str) : result str :=
  file ← open_rb file_path;
  pdf_reader ← PdfReader L file;
  for_each (seq 0 (length (PyPDF2.pages pdf_reader))) []
    (fun text page_num =>
       page ← getitem (PyPDF2.pages pdf_reader) page_num;
       t ← PyPDF2.extract_text page;
       mret (text ++ (t ++ nl ++ nl))).

Definition extract_from_pdf (file_path : str) : result str :=
  try_except (pdf_body file_path)
    (fun e => mret (lit "Error extracting text from PDF: " ++ exc_str e)).

Definition docx_body (file_path : str) : result str :=
  doc ← Document L fs file_path;
  mret (join (nl ++ nl) (map docx.text (docx.paragraphs doc))).

Definition extract_from_docx (file_path : str) : result str :=
  try_except (docx_body file_path)
    (fun e => mret (lit "Error extracting text from DOCX: " ++ exc_str e)).

Definition doc_body (file_path : str) : result str :=
  docx_file ← open_rb file_path;
  result ← extract_raw_text L docx_file;
  mret (mammoth.value result).

Definition extract_from_doc (file_path : str) : result str :=
  try_except (doc_body file_path)
    (fun e => mret (lit "Error extracting text from DOC: " ++ exc_str e)).

Definition txt_body (file_path : str) : result str :=
  open_read_text file_path.

Definition extract_from_txt (file_path : str) : result str :=
  try_except (txt_body file_path)
    (fun e => mret (lit "Error extracting text from TXT: " ++ exc_str e)).

Definition csv_body (file_path : str) : result str :=
  df ← read_csv L fs file_path;
  pd.to_string df.

Definition extract_from_csv (file_path : str) : result str :=
  try_except (csv_body file_path)
    (fun e => mret (lit "Error extracting text from CSV: " ++ exc_str e)).

Definition excel_body (file_path : str) : result str :=
  df ← read_excel L fs file_path;
  for_each df []
    (fun result '(sheet_name, sheet_df) =>
       let result := result ++ (lit "Sheet: " ++ sheet_name ++ nl) in
       t ← pd.to_string sheet_df;
       mret (result ++ (t ++ nl ++ nl))).

Definition extract_from_excel (file_path : str) : result str :=
  try_except (excel_body file_path)
    (fun e => mret (lit "Error extracting text from Excel: " ++ exc_str e)).

Definition pptx_body (file_path : str) : result str :=
  pres ← Presentation L fs file_path;
  for_each (pptx.slides pres) []
    (fun text slide =>
       text ← for_each (pptx.shapes slide) text
                (fun text shape =>
                   if pptx.has_text shape
                   then t ← pptx.text shape; mret (text ++ (t ++ nl))
                   else mret text);
       mret (text ++ nl)).

Definition extract_from_pptx (file_path : str) : result str :=
  try_except (pptx_body file_path)
    (fun e => mret (lit "Error extracting text from PowerPoint: " ++ exc_str e)).

Definition html_body (file_path : str) : result str :=
  markup ← open_read_text file_path;
  soup ← BeautifulSoup L markup;
  bs4.get_text soup.

Definition extract_from_html (file_path : str) : result str :=
  try_except (html_body file_path)
    (fun e => mret (lit "Error extracting text from HTML: " ++ exc_str e)).
End Handlers.

(** The static methods that [process_file] looks up on the class when it
    runs, each a call that returns or raises. *)
Record methods := {
  call_pdf : str -> result str;
  call_docx : str -> result str;
  call_doc : str -> result str;
  call_txt : str -> result str;
  call_csv : str -> result str;
  call_excel : str -> result str;
  call_pptx : str -> result str;
  call_html : str -> result str;
}.

(** The methods as the class defines them. *)
Definition defined (L : Libs) (fs : FS) : methods := {|
  call_pdf := extract_from_pdf L fs;
  call_docx := extract_from_docx L fs;
  call_doc := extract_from_doc L fs;
  call_txt := extract_from_txt L fs;
  call_csv := extract_from_csv L fs;
  call_excel := extract_from_excel L fs;
  call_pptx := extract_from_pptx L fs;
  call_html := extract_from_html L fs;
|}.

(** The [if]/[elif] ladder of [process_file]: the value bound to [text]. *)
Definition dispatch (M : methods) (file_path file_ext : str) : result str :=
  if bool_decide (file_ext = lit ".pdf") then call_pdf M file_path
  else if bool_decide (file_ext = lit ".docx") then call_docx M file_path
  else if bool_decide (file_ext = lit ".doc") then call_doc M file_path
  else if bool_decide (file_ext = lit ".txt") then call_txt M file_path
  else if bool_decide (file_ext ∈ [lit ".csv"]) then call_csv M file_path
  else if bool_decide (file_ext ∈ [lit ".xls"; lit ".xlsx"])
       then call_excel M file_path
  else if bool_decide (file_ext = lit ".pptx") then call_pptx M file_path
  else if bool_decide (file_ext ∈ [lit ".html"; lit ".htm"])
       then call_html M file_path
  else if bool_decide (file_ext ∈ [lit ".jpg"; lit ".jpeg"; lit ".png";
                                    lit ".bmp"; lit ".gif"; lit ".tiff"])
       then mret (lit "Image processing is not supported in this version.")
  else mret (lit "Unsupported file format: " ++ file_ext).

(** [process_file] over whatever the class's methods are bound to. *)
Definition process_file_with (M : methods) (file_path file_ext : str)
  : result dict :=
  try_except
    (text ← dispatch M file_path file_ext;
     mret ({[ lit "text" := text ]} : dict))
    (fun e =>
       mret ({[ lit "error" := lit "Error processing file: " ++ exc_str e ]} : dict)).

(** [DocumentExtractor.process_file(file_path, file_ext)]. *)
Definition process_file (L : Libs) (fs : FS) (file_path file_ext : str)
  : result dict :=
  process_file_with (defined L fs) file_path file_ext.

End DocumentExtractor.
Import DocumentExtractor.

(** ** The endpoint [extract_text] *)

(** An upload: its file name and what [await file.read()] gives. *)
Record UploadFile := { filename : str; read : result bytes }.

(** What the endpoint answers: the JSON body of a 200 response, or a raised
    [HTTPException]. *)
Inductive response : Type :=
| JSON (body : dict)
| HTTPException (status_code : N) (detail : str).

(** [extract_text(file)]; [temp_name] is the name of the temporary file that
    [NamedTemporaryFile] creates. The function returns the response and the
    file system it leaves. An [UploadFile] object is truthy, so the guard
    [if not file] is never taken. This is the endpoint on an upload that has
    a file name and whose temporary copy is written without error;
    [extract_text_full] drops both assumptions. *)
Definition extract_text (L : Libs) (fs : FS) (temp_name : str) (file : UploadFile)
  : response * FS :=
  let fs0 : FS := <[temp_name := []]> fs in
  let '(r, fs1) :=
    match read file with
    | Raise e => (Raise e, fs0)
    | Return contents =>
      let fs1 : FS := <[temp_name := contents]> fs0 in
      let file_ext := lower (unicode_lower L) (splitext (filename file)).2 in
      (process_file L fs1 temp_name file_ext, fs1)
    end in
  (match r with
   | Return result => JSON result
   | Raise e => HTTPException 500 (lit "Error processing file: " ++ exc_str e)
   end,
   delete temp_name fs1).

(** ** Sample environment

    A small concrete world on which the statements below are evaluated. *)

Module Sample.

Definition page (t : string) : PyPDF2.PageObject :=
  {| PyPDF2.extract_text := Return (lit t) |}.

Definition frame (t : string) : pd.DataFrame :=
  {| pd.to_string := Return (lit t) |}.

(** Libraries that reject an empty or missing file and otherwise return a
    fixed document of their format. *)
Definition libs : Libs := {|
  PdfReader b :=
    match b with
    | [] => Raise (Exception (lit "Cannot read an empty file"))
    | _ :: _ => Return {| PyPDF2.pages := [page "A"; page "B"; page "C"] |}
    end;
  Document fs p :=
    match fs !! p with
    | Some (_ :: _) =>
        Return {| docx.paragraphs := [ {| docx.text := lit "one" |};
                                       {| docx.text := lit "two" |} ] |}
    | _ => Raise (Exception (lit "Package not found"))
    end;
  extract_raw_text b :=
    match b with
    | [] => Raise (Exception (lit "File is not a zip file"))
    | _ :: _ => Return {| mammoth.value := lit "raw" |}
    end;
  read_csv fs p :=
    match fs !! p with
    | Some (_ :: _) => Return (frame "   a  b")
    | _ => Raise (Exception (lit "No columns to parse from file"))
    end;
  read_excel fs p :=
    match fs !! p with
    | Some (_ :: _) =>
        Return [(lit "Sheet1", frame "   a"); (lit "Data", frame "   b")]
    | _ => Raise (Exception (lit "Excel file format cannot be determined"))
    end;
  Presentation fs p :=
    match fs !! p with
    | Some (_ :: _) =>
        Return {| pptx.slides :=
          [ {| pptx.shapes :=
                 [ {| pptx.has_text := true; pptx.text := Return (lit "title") |};
                   {| pptx.has_text := false;
                      pptx.text := Raise (Exception (lit "no attribute")) |} ] |} ] |}
    | _ => Raise (Exception (lit "Package not found"))
    end;
  BeautifulSoup markup := Return {| bs4.get_text := Return markup |};
  open_error p := lit "[Errno 2] No such file or directory";
  unicode_lower s := s;
|}.

Definition path : str := lit "/tmp/tmpab12".

(** A file system holding one non-empty file at [path]. *)
Definition disk : FS := {[ path := [x25; x50; x44; x46] ]}.

(** A file system holding an empty file at [path]. *)
Definition disk_empty : FS := {[ path := [] ]}.

(** Methods that all raise: a failure at the call sites of [process_file],
    outside the handlers' own [try]. *)
Definition raising : methods :=
  let boom := fun _ : str => Raise (Exception (lit "boom")) in
  {| call_pdf := boom; call_docx := boom; call_doc := boom; call_txt := boom;
     call_csv := boom; call_excel := boom; call_pptx := boom; call_html := boom |}.

End Sample.

(** ** Vocabulary of the statements *)

(** The six image suffixes of the ladder. *)
Definition image_exts : list str :=
  [lit ".jpg"; lit ".jpeg"; lit ".png"; lit ".bmp"; lit ".gif"; lit ".tiff"].

(** The ten suffixes of the eight format families that have a handler. *)
Definition handled_exts : list str :=
  [lit ".pdf"; lit ".docx"; lit ".doc"; lit ".txt"; lit ".csv"; lit ".xls";
   lit ".xlsx"; lit ".pptx"; lit ".html"; lit ".htm"].

(** The known set: every suffix that some branch of the ladder names. *)
Definition known_exts : list str := handled_exts ++ image_exts.

(** The eight format families. *)
Inductive format : Type :=
| PDF | DOCX | DOC | TXT | CSV | Excel | PowerPoint | HTML.

(** The name of the family in the handler's message. *)
Definition format_label (f : format) : str :=
  match f with
  | PDF => lit "PDF" | DOCX => lit "DOCX" | DOC => lit "DOC" | TXT => lit "TXT"
  | CSV => lit "CSV" | Excel => lit "Excel" | PowerPoint => lit "PowerPoint"
  | HTML => lit "HTML"
  end.

(** The family each handled suffix belongs to. *)
Definition format_of_ext : list (str * format) :=
  [(lit ".pdf", PDF); (lit ".docx", DOCX); (lit ".doc", DOC); (lit ".txt", TXT);
   (lit ".csv", CSV); (lit ".xls", Excel); (lit ".xlsx", Excel);
   (lit ".pptx", PowerPoint); (lit ".html", HTML); (lit ".htm", HTML)].

(** The parsing a family's handler runs inside its [try]. *)
Definition parsing (L : Libs) (fs : FS) (f : format) : str -> result str :=
  match f with
  | PDF => pdf_body L fs | DOCX => docx_body L fs | DOC => doc_body L fs
  | TXT => txt_body L fs | CSV => csv_body L fs | Excel => excel_body L fs
  | PowerPoint => pptx_body L fs | HTML => html_body L fs
  end.

(** The two shapes of the dictionary that [process_file] returns. *)
Definition Text (content : str) : dict := {[ lit "text" := content ]}.
Definition Error (message : str) : dict := {[ lit "error" := message ]}.

(** Exactly one of the keys ["text"] and ["error"] is present, and no other. *)
Definition one_variant (d : dict) : Prop :=
  size d = 1%nat
  /\ ((is_Some (d !! lit "text") /\ d !! lit "error" = None)
      \/ (d !! lit "text" = None /\ is_Some (d !! lit "error"))).

(** A Unicode scalar value: a code point that is not a surrogate. *)
Definition is_scalar (c : N) : Prop :=
  c < 0xD800 \/ (0xE000 <= c /\ c < 0x110000).

(** The UTF-8 encoding of a scalar value (RFC 3629), as byte values. *)
Definition utf8_encode_char (c : N) : list N :=
  if c <? 0x80 then [c]
  else if c <? 0x800 then [0xC0 + c / 64; 0x80 + c mod 64]
  else if c <? 0x10000 then
    [0xE0 + c / 4096; 0x80 + (c / 64) mod 64; 0x80 + c mod 64]
  else
    [0xF0 + c / 262144; 0x80 + (c / 4096) mod 64; 0x80 + (c / 64) mod 64;
     0x80 + c mod 64].

Definition utf8_encode (s : str) : list N := concat (map utf8_encode_char s).

(** A byte string is valid UTF-8 when it encodes some sequence of scalars. *)
Definition valid_utf8 (b : bytes) : Prop :=
  exists s : str, Forall is_scalar s /\ utf8_encode s = map Byte.to_N b.

(** ** The endpoint [chat_with_document] *)

Module openai.
(** The response of [openai.ChatCompletion.create], as the endpoint reads
    it: [response['choices']], and for each choice its
    [['message']['content']]; either access may raise. *)
Record ChatCompletion := { choices : result (list (result str)) }.
End openai.

Record ChatRequest := { documentText : str; userMessage : str }.

Definition system_prompt : str :=
  lit "You are an assistant that only answers based on the provided document text."
  ++ nl
  ++ lit "If the information is not in the document, reply: 'The document does not contain information on that topic.'".

(** The number of characters of the document that the prompt keeps. *)
Definition document_limit : nat := N.to_nat 100000.

(** The content of the user message: the f-string of the source. *)
Definition user_content (request : ChatRequest) : str :=
  lit "Document:" ++ nl ++ take document_limit (documentText request)
  ++ nl ++ nl ++ lit "User Question:" ++ nl ++ userMessage request.

(** The [messages] argument of the call. *)
Definition chat_messages (request : ChatRequest) : list dict :=
  [ {[ lit "role" := lit "system"; lit "content" := system_prompt ]};
    {[ lit "role" := lit "user"; lit "content" := user_content request ]} ].

(** [chat_with_document(request)]; [create] is
    [openai.ChatCompletion.create], given the model name and the messages. *)
Definition chat_with_document
  (create : str -> list dict -> result openai.ChatCompletion)
  (request : ChatRequest) : result dict :=
  try_except
    (response ← create (lit "gpt-3.5-turbo") (chat_messages request);
     choices ← openai.choices response;
     choice ← getitem choices 0;
     answer ← choice;
     mret ({[ lit "answer" := answer ]} : dict))
    (fun e => mret ({[ lit "error" := exc_str e ]} : dict)).

(** The texts that one slide contributes: those of its shapes that have the
    attribute [text], in order. *)
Definition slide_texts (slide : pptx.Slide) (ts : list str) : Prop :=
  Forall2 (fun sh t => pptx.text sh = Return t)
    (List.filter pptx.has_text (pptx.shapes slide)) ts.

(** ** A second sample environment, with documents that fail part-way *)

Module Faulty.

Definition bad_page : PyPDF2.PageObject :=
  {| PyPDF2.extract_text := Raise (Exception (lit "bad stream")) |}.

Definition bad_frame : pd.DataFrame :=
  {| pd.to_string := Raise (Exception (lit "cannot render")) |}.

(** The sample libraries, except that the second page of every PDF and the
    second sheet of every workbook fail. *)
Definition libs : Libs := {|
  PdfReader b := Return {| PyPDF2.pages := [Sample.page "A"; bad_page] |};
  Document := Document Sample.libs;
  extract_raw_text := extract_raw_text Sample.libs;
  read_csv := read_csv Sample.libs;
  read_excel fs p :=
    Return [(lit "Sheet1", Sample.frame "   a"); (lit "Broken", bad_frame)];
  Presentation := Presentation Sample.libs;
  BeautifulSoup := BeautifulSoup Sample.libs;
  open_error := open_error Sample.libs;
  unicode_lower := unicode_lower Sample.libs;
|}.

End Faulty.

(** ** Lenient decoding, as a relation

    The words "a replacement marker for each invalid sequence", made
    precise without reference to the decoder: the input is cut, from left to
    right, into encodings of scalars and ill-formed sequences; a scalar is
    written for each encoding and one marker for each ill-formed sequence. *)

(** The bytes [p] begin the encoding of some scalar. *)
Definition begins_scalar (p : list N) : Prop :=
  exists c tail, is_scalar c /\ utf8_encode_char c = p ++ tail.

(** The bytes [bs] start with the whole encoding of some scalar. *)
Definition starts_with_scalar (bs : list N) : Prop :=
  exists c rest, is_scalar c /\ bs = utf8_encode_char c ++ rest.

(** [bad] is the ill-formed sequence at the head of [bad ++ rest]: the input
    does not start with an encoded scalar, and [bad] is its longest prefix
    that begins the encoding of a scalar, or its first byte when no prefix
    does. *)
Definition ill_formed_head (bad rest : list N) : Prop :=
  bad <> []
  /\ ~ starts_with_scalar (bad ++ rest)
  /\ (begins_scalar bad \/ length bad = 1%nat)
  /\ forall x rest', rest = x :: rest' -> ~ begins_scalar (bad ++ [x]).

Inductive lenient_decoding : list N -> str -> Prop :=
| lenient_end : lenient_decoding [] []
| lenient_scalar (c : N) (rest : list N) (out : str) :
    is_scalar c -> lenient_decoding rest out ->
    lenient_decoding (utf8_encode_char c ++ rest) (c :: out)
| lenient_marker (bad rest : list N) (out : str) :
    ill_formed_head bad rest -> lenient_decoding rest out ->
    lenient_decoding (bad ++ rest) (REPLACEMENT :: out).

(** ** The endpoint, with every step of its [try] able to fail *)

(** The [TypeError] of [os.path.splitext(None)], for an upload without a
    file name. *)
Definition splitext_of_None : exc :=
  Exception (lit "expected str, bytes or os.PathLike object, not NoneType").

(** [extract_text(file)] for an upload whose name may be [None], with
    [write contents] the outcome of writing [contents] to the temporary file
    (lines 169-170). [read] is what [await file.read()] gives. The temporary
    file has been created under [temp_name]; what a failed write leaves in it
    is not observed, since the file is deleted before the call returns. *)
Definition extract_text_full (L : Libs) (fs : FS) (temp_name : str)
  (filename : option str) (read : result bytes) (write : bytes -> result ())
  : response * FS :=
  let fs0 : FS := <[temp_name := []]> fs in
  let '(r, fs1) :=
    match read with
    | Raise e => (Raise e, fs0)
    | Return contents =>
      match write contents with
      | Raise e => (Raise e, fs0)
      | Return _ =>
        let fs1 : FS := <[temp_name := contents]> fs0 in
        match filename with
        | None => (Raise splitext_of_None, fs1)
        | Some name =>
          let file_ext := lower (unicode_lower L) (splitext name).2 in
          (process_file L fs1 temp_name file_ext, fs1)
        end
      end
    end in
  (match r with
   | Return result => JSON result
   | Raise e => HTTPException 500 (lit "Error processing file: " ++ exc_str e)
   end,
   delete temp_name fs1).

(** ** Checks of the embedding on the sample environment *)

Example sample_pdf :
  process_file Sample.libs Sample.disk Sample.path (lit ".pdf")
  = Return {[ lit "text" := [65; 10; 10; 66; 10; 10; 67; 10; 10] ]}.
Proof. vm_compute. reflexivity. Qed.

Example sample_docx :
  process_file Sample.libs Sample.disk Sample.path (lit ".docx")
  = Return {[ lit "text" := lit "one" ++ [10; 10] ++ lit "two" ]}.
Proof. vm_compute. reflexivity. Qed.

Example sample_pptx :
  process_file Sample.libs Sample.disk Sample.path (lit ".pptx")
  = Return {[ lit "text" := lit "title" ++ [10; 10] ]}.
Proof. vm_compute. reflexivity. Qed.

Example sample_missing_file :
  process_file Sample.libs ∅ Sample.path (lit ".txt")
  = Return {[ lit "text" :=
       lit "Error extracting text from TXT: [Errno 2] No such file or directory" ]}.
Proof. vm_compute. reflexivity. Qed.

Example sample_splitext :
  splitext (lit "archive.tar.GZ") = (lit "archive.tar", lit ".GZ")
  /\ splitext (lit ".bashrc") = (lit ".bashrc", [])
  /\ splitext (lit "dir.d/README") = (lit "dir.d/README", [])
  /\ splitext (lit "...") = (lit "...", [])
  /\ splitext (lit "a.") = (lit "a", lit ".").
Proof. vm_compute. repeat split. Qed.

Example sample_decode :
  utf8_decode_replace [0x41; 0xC3; 0xA9; 0xE2; 0x82; 0xAC; 0xF0; 0x9F; 0x98; 0x80]
  = [0x41; 0xE9; 0x20AC; 0x1F600]
  /\ utf8_decode_replace [0x41; 0xFF; 0x42] = [0x41; 0xFFFD; 0x42]
  /\ utf8_decode_replace [0xE2; 0x82] = [0xFFFD]
  /\ utf8_decode_replace [0xE2; 0x82; 0x41] = [0xFFFD; 0x41]
  /\ utf8_decode_replace [0xED; 0xA0; 0x80] = [0xFFFD; 0xFFFD; 0xFFFD]
  /\ utf8_decode_replace [0xF0; 0x9F; 0x98] = [0xFFFD]
  /\ utf8_decode_replace [0xC0; 0x80] = [0xFFFD; 0xFFFD].
Proof. vm_compute. repeat split. Qed.

Example sample_upload :
  extract_text Sample.libs ∅ Sample.path
    {| filename := lit "Report.PDF"; read := Return [x25; x50] |}
  = (JSON {[ lit "text" := [65; 10; 10; 66; 10; 10; 67; 10; 10] ]}, ∅).
Proof. vm_compute. reflexivity. Qed.

(** ** The ladder, branch by branch *)

Section Ladder.
Variable M : methods.
Variable file_path : str.

Lemma dispatch_pdf : dispatch M file_path (lit ".pdf") = call_pdf M file_path.
Proof. reflexivity. Qed.
Lemma dispatch_docx : dispatch M file_path (lit ".docx") = call_docx M file_path.
Proof. reflexivity. Qed.
Lemma dispatch_doc : dispatch M file_path (lit ".doc") = call_doc M file_path.
Proof. reflexivity. Qed.
Lemma dispatch_txt : dispatch M file_path (lit ".txt") = call_txt M file_path.
Proof. reflexivity. Qed.
Lemma dispatch_csv : dispatch M file_path (lit ".csv") = call_csv M file_path.
Proof. reflexivity. Qed.
Lemma dispatch_xls : dispatch M file_path (lit ".xls") = call_excel M file_path.
Proof. reflexivity. Qed.
Lemma dispatch_xlsx : dispatch M file_path (lit ".xlsx") = call_excel M file_path.
Proof. reflexivity. Qed.
Lemma dispatch_pptx : dispatch M file_path (lit ".pptx") = call_pptx M file_path.
Proof. reflexivity. Qed.
Lemma dispatch_html : dispatch M file_path (lit ".html") = call_html M file_path.
Proof. reflexivity. Qed.
Lemma dispatch_htm : dispatch M file_path (lit ".htm") = call_html M file_path.
Proof. reflexivity. Qed.

Lemma dispatch_image (file_ext : str) :
  file_ext ∈ image_exts ->
  dispatch M file_path file_ext
  = Return (lit "Image processing is not supported in this version.").
Proof.
  unfold image_exts. rewrite !elem_of_cons, elem_of_nil.
  intros H. repeat (destruct H as [-> | H]; [reflexivity |]). destruct H.
Qed.

Lemma dispatch_unknown (file_ext : str) :
  file_ext ∉ known_exts ->
  dispatch M file_path file_ext
  = Return (lit "Unsupported file format: " ++ file_ext).
Proof.
  unfold known_exts, handled_exts, image_exts. cbn [app].
  rewrite !not_elem_of_cons. intros H.
  unfold dispatch.
  repeat (rewrite bool_decide_eq_false_2;
          [| rewrite ?elem_of_cons, ?elem_of_nil; tauto]).
  reflexivity.
Qed.

(** A value bound to [text] is wrapped under the key ["text"]; an exception
    at the ladder is wrapped under the key ["error"]. *)
Lemma process_file_with_return (file_ext text : str) :
  dispatch M file_path file_ext = Return text ->
  process_file_with M file_path file_ext = Return (Text text).
Proof. unfold process_file_with. intros ->. reflexivity. Qed.

Lemma process_file_with_raise (file_ext : str) (e : exc) :
  dispatch M file_path file_ext = Raise e ->
  process_file_with M file_path file_ext
  = Return (Error (lit "Error processing file: " ++ exc_str e)).
Proof. unfold process_file_with. intros ->. reflexivity. Qed.
End Ladder.

Lemma Return_inj {A} (a b : A) : Return a = Return b -> a = b.
Proof. now intros [= ->]. Qed.

Lemma one_variant_Text (t : str) : one_variant (Text t).
Proof.
  unfold one_variant, Text. split; [apply map_size_singleton |].
  left. rewrite lookup_singleton_eq. split; [eauto |].
  apply lookup_singleton_ne. discriminate.
Qed.

Lemma one_variant_Error (m : str) : one_variant (Error m).
Proof.
  unfold one_variant, Error. split; [apply map_size_singleton |].
  right. rewrite lookup_singleton_eq. split; [| eauto].
  apply lookup_singleton_ne. discriminate.
Qed.

Lemma Text_neq_Error (t m : str) : Text t <> Error m.
Proof.
  intros H. apply (f_equal (fun d : dict => d !! lit "text")) in H.
  unfold Text, Error in H. rewrite lookup_singleton_eq in H.
  rewrite lookup_singleton_ne in H by discriminate. discriminate.
Qed.

Lemma Text_inj (t1 t2 : str) : Text t1 = Text t2 -> t1 = t2.
Proof.
  intros H. apply (f_equal (fun d : dict => d !! lit "text")) in H.
  unfold Text in H. rewrite !lookup_singleton_eq in H. congruence.
Qed.

(** Every handler of the class returns: whatever its parsing does, the
    [except] clause turns an exception into the message string. *)
Lemma try_except_returns {A} (body : result A) (h : exc -> A) :
  exists a, try_except body (fun e => mret (h e)) = Return a.
Proof. destruct body; cbn; eauto. Qed.

Lemma defined_dispatch_returns (L : Libs) (fs : FS) (file_path file_ext : str) :
  exists t, dispatch (defined L fs) file_path file_ext = Return t.
Proof.
  unfold dispatch, defined; cbn.
  repeat case_bool_decide; try apply try_except_returns; cbn; eauto.
Qed.

(** With the methods the class defines, [process_file] always takes the
    ["text"] shape. *)
Lemma process_file_text (L : Libs) (fs : FS) (file_path file_ext : str) :
  exists t, process_file L fs file_path file_ext = Return (Text t).
Proof.
  destruct (defined_dispatch_returns L fs file_path file_ext) as [t Ht].
  exists t. unfold process_file. now apply process_file_with_return.
Qed.

(** ** The image branch and the fallback *)

Lemma process_file_fallback (L : Libs) (fs : FS) (file_path file_ext : str) :
  file_ext ∉ known_exts ->
  process_file L fs file_path file_ext
  = Return (Text (lit "Unsupported file format: " ++ file_ext)).
Proof.
  intros H. unfold process_file.
  apply process_file_with_return. now apply dispatch_unknown.
Qed.

(** C5. For each of the six image suffixes, and for every file system (so for
    every content of the file, empty and garbage included, and for a missing
    file), [process_file] returns the text result whose content is exactly
    "Image processing is not supported in this version."; the libraries and
    the file are not consulted. *)
Theorem image_extension_fixed_text
  (L : Libs) (fs : FS) (file_path file_ext : str) :
  file_ext ∈ image_exts ->
  process_file L fs file_path file_ext
  = Return (Text (lit "Image processing is not supported in this version.")).
Proof.
  intros H. unfold process_file.
  apply process_file_with_return. now apply dispatch_image.
Qed.

Lemma image_extension_fixed_text_witness :
  (lit ".png" ∈ image_exts)
  /\ process_file Sample.libs Sample.disk Sample.path (lit ".png")
     = Return (Text (lit "Image processing is not supported in this version.")).
Proof.
  assert (H : lit ".png" ∈ image_exts) by (vm_compute; set_solver).
  split; [exact H |].
  exact (image_extension_fixed_text Sample.libs Sample.disk Sample.path
           (lit ".png") H).
Defined.

(** C6. For every extension outside the known set (the ten suffixes of the
    eight handled families and the six image suffixes), [process_file]
    returns a text result, not an error, whose content is
    "Unsupported file format: " followed by the extension as it was given. *)
Theorem unknown_extension_text
  (L : Libs) (fs : FS) (file_path file_ext : str) :
  file_ext ∉ known_exts ->
  process_file L fs file_path file_ext
  = Return (Text (lit "Unsupported file format: " ++ file_ext)).
Proof. apply process_file_fallback. Qed.

Lemma unknown_extension_text_witness :
  (lit ".xyz" ∉ known_exts)
  /\ process_file Sample.libs Sample.disk Sample.path (lit ".xyz")
     = Return (Text (lit "Unsupported file format: " ++ lit ".xyz")).
Proof.
  assert (H : lit ".xyz" ∉ known_exts).
  { apply (bool_decide_unpack _). vm_compute. exact I. }
  split; [exact H |].
  exact (unknown_extension_text Sample.libs Sample.disk Sample.path
           (lit ".xyz") H).
Defined.

(** ** The shape of the result *)

(** C9. [process_file] returns a value for every input and every binding of
    the class's methods, and the returned dictionary has exactly one of the
    keys "text" and "error" and nothing else: it is [Text t] or [Error m],
    never both and never neither. *)
Theorem process_file_one_variant (M : methods) (file_path file_ext : str) :
  exists d : dict,
    process_file_with M file_path file_ext = Return d
    /\ one_variant d
    /\ ((exists t, d = Text t) \/ (exists m, d = Error m))
    /\ ~ ((exists t, d = Text t) /\ (exists m, d = Error m)).
Proof.
  destruct (dispatch M file_path file_ext) as [t | e] eqn:E.
  - exists (Text t). split; [now apply process_file_with_return |].
    split; [apply one_variant_Text |]. split; [eauto |].
    intros [_ [m Hm]]. exact (Text_neq_Error _ _ Hm).
  - exists (Error (lit "Error processing file: " ++ exc_str e)).
    split; [now apply process_file_with_raise |].
    split; [apply one_variant_Error |]. split; [eauto |].
    intros [[t Ht] _]. symmetry in Ht. exact (Text_neq_Error _ _ Ht).
Qed.

(** ** An exception at the ladder *)

(** C2, as the code has it. When a call made by the ladder of [process_file]
    raises an [Exception] [e] (a failure outside the handlers' own [try]),
    the outer [except] of [process_file] catches it: the call returns the
    error result [{"error": "Error processing file: " + str(e)}] and raises
    nothing. *)
Theorem ladder_exception_is_returned
  (M : methods) (file_path file_ext : str) (e : exc) :
  dispatch M file_path file_ext = Raise e ->
  process_file_with M file_path file_ext
  = Return (Error (lit "Error processing file: " ++ exc_str e))
  /\ forall e', process_file_with M file_path file_ext <> Raise e'.
Proof.
  intros H. rewrite (process_file_with_raise _ _ _ _ H).
  split; [reflexivity | discriminate].
Qed.

Lemma ladder_exception_is_returned_witness :
  dispatch Sample.raising Sample.path (lit ".pdf") = Raise (Exception (lit "boom"))
  /\ process_file_with Sample.raising Sample.path (lit ".pdf")
     = Return (Error (lit "Error processing file: " ++ lit "boom")).
Proof.
  assert (H : dispatch Sample.raising Sample.path (lit ".pdf")
              = Raise (Exception (lit "boom"))) by reflexivity.
  split; [exact H |].
  exact (proj1 (ladder_exception_is_returned Sample.raising Sample.path
                  (lit ".pdf") (Exception (lit "boom")) H)).
Defined.

(** C2, as the claim has it, fails: with methods that raise "boom", the
    ladder raises at the [.pdf] branch, yet [process_file] does not raise; it
    returns a dictionary, the one with the key "error". *)
Lemma ladder_exception_not_raised :
  dispatch Sample.raising Sample.path (lit ".pdf") = Raise (Exception (lit "boom"))
  /\ process_file_with Sample.raising Sample.path (lit ".pdf")
     = Return (Error (lit "Error processing file: boom"))
  /\ (forall e, process_file_with Sample.raising Sample.path (lit ".pdf")
                <> Raise e).
Proof.
  split; [reflexivity |]. split; [vm_compute; reflexivity |].
  intros e. vm_compute. discriminate.
Qed.

(** ** A file name without an extension *)

Lemma rfind_from_absent (c : N) (p : str) (i last : Z) :
  c ∉ p -> rfind_from c p i last = last.
Proof.
  revert i last. induction p as [| x p IH]; intros i last H; cbn; [reflexivity |].
  apply not_elem_of_cons in H as [Hx Hp].
  destruct (N.eqb_spec x c); [congruence |]. now apply IH.
Qed.

Lemma rfind_from_lower_bound (c : N) (p : str) (i last : Z) :
  (-1 <= i)%Z -> (-1 <= last)%Z -> (-1 <= rfind_from c p i last)%Z.
Proof.
  revert i last. induction p as [| x p IH]; intros i last Hi Hl; cbn; [exact Hl |].
  apply IH; [lia |]. destruct (x =? c); lia.
Qed.

(** A path without a dot has no extension. *)
Lemma splitext_no_dot (p : str) : extsep ∉ p -> splitext p = (p, []).
Proof.
  intros H. unfold splitext, rfind.
  rewrite (rfind_from_absent extsep p 0 (-1) H).
  pose proof (rfind_from_lower_bound sep p 0 (-1) ltac:(lia) ltac:(lia)) as Hs.
  destruct (Z.ltb_spec (rfind_from sep p 0 (-1)) (-1)); [lia | reflexivity].
Qed.

(** C10. The empty extension is not special: [process_file] given [""]
    falls to the last branch and returns the text result
    "Unsupported file format: " with nothing after the space, for every file
    system and path. It is the extension the endpoint derives from a file
    name without a dot, so such an upload is answered with that text in a
    JSON body, not with an error. *)
Theorem empty_extension_unsupported (L : Libs) (fs : FS) (file_path : str) :
  process_file L fs file_path (lit "")
  = Return (Text (lit "Unsupported file format: "))
  /\ (lit "" ∉ known_exts)
  /\ forall (temp_name : str) (file : UploadFile) (contents : bytes),
       read file = Return contents ->
       extsep ∉ filename file ->
       (extract_text L fs temp_name file).1
       = JSON (Text (lit "Unsupported file format: ")).
Proof.
  assert (Hk : lit "" ∉ known_exts).
  { apply (bool_decide_unpack _). vm_compute. exact I. }
  assert (Hp : forall fs' p, process_file L fs' p (lit "")
                             = Return (Text (lit "Unsupported file format: "))).
  { intros fs' p. rewrite (process_file_fallback L fs' p _ Hk).
    now rewrite app_nil_r. }
  split; [apply Hp |]. split; [exact Hk |].
  intros temp_name file contents Hr Hdot. unfold extract_text.
  rewrite Hr, (splitext_no_dot _ Hdot). cbn [snd].
  change (lower (unicode_lower L) []) with (lit ""). now rewrite Hp.
Qed.

Lemma empty_extension_unsupported_witness :
  (extract_text Sample.libs Sample.disk Sample.path
     {| filename := lit "README"; read := Return [x68; x69] |}).1
  = JSON (Text (lit "Unsupported file format: ")).
Proof.
  assert (H : extsep ∉ lit "README").
  { apply (bool_decide_unpack _). vm_compute. exact I. }
  exact (proj2 (proj2 (empty_extension_unsupported Sample.libs Sample.disk
                         Sample.path))
           Sample.path {| filename := lit "README"; read := Return [x68; x69] |}
           [x68; x69] eq_refl H).
Defined.

(** ** A parsing failure inside a handler *)

(** The handled suffixes are exactly those of the table [format_of_ext]. *)
Lemma format_of_ext_handled : map fst format_of_ext = handled_exts.
Proof. reflexivity. Qed.

(** One branch of the ladder: name the method it calls, open the method's
    [try], and compare the two outcomes of the parsing. *)
Ltac handled_branch :=
  unfold process_file, process_file_with, parsing;
  first [ rewrite dispatch_pdf | rewrite dispatch_docx | rewrite dispatch_doc
        | rewrite dispatch_txt | rewrite dispatch_csv | rewrite dispatch_xls
        | rewrite dispatch_xlsx | rewrite dispatch_pptx | rewrite dispatch_html
        | rewrite dispatch_htm ];
  cbn [defined call_pdf call_docx call_doc call_txt call_csv call_excel
       call_pptx call_html];
  unfold extract_from_pdf, extract_from_docx, extract_from_doc,
    extract_from_txt, extract_from_csv, extract_from_excel, extract_from_pptx,
    extract_from_html;
  lazymatch goal with
  | |- _ = try_except ?body _ ≫= _ => destruct body
  end;
  reflexivity.

(** What [process_file] does at a handled suffix: it wraps the value of the
    family's handler, which is the parsing under the handler's [except]. *)
Lemma process_file_handled
  (L : Libs) (fs : FS) (file_path file_ext : str) (f : format) :
  (file_ext, f) ∈ format_of_ext ->
  process_file L fs file_path file_ext
  = t ← try_except (parsing L fs f file_path)
          (fun e => mret (lit "Error extracting text from "
                          ++ format_label f ++ lit ": " ++ exc_str e));
    mret (Text t).
Proof.
  unfold format_of_ext. rewrite !elem_of_cons, elem_of_nil.
  intros H.
  repeat (destruct H as [H | H]; [injection H as -> ->; handled_branch |]).
  destruct H.
Qed.

(** C1. For every file system and path and every handled suffix, when the
    parsing that the suffix's handler runs raises an exception [e], the
    handler catches it and [process_file] returns the text result (not the
    error result, and nothing is raised) whose content is
    "Error extracting text from <FORMAT>: " followed by [str(e)]. In
    particular a [.pdf] file that [PdfReader] rejects gives a text result
    that starts with "Error extracting text from PDF:". *)
Theorem parse_failure_is_text
  (L : Libs) (fs : FS) (file_path file_ext : str) (f : format) (e : exc) :
  (file_ext, f) ∈ format_of_ext ->
  parsing L fs f file_path = Raise e ->
  process_file L fs file_path file_ext
  = Return (Text (lit "Error extracting text from " ++ format_label f
                  ++ lit ": " ++ exc_str e))
  /\ (forall m, process_file L fs file_path file_ext <> Return (Error m))
  /\ (forall e', process_file L fs file_path file_ext <> Raise e')
  /\ (forall (b : bytes) (e0 : exc),
        fs !! file_path = Some b -> PdfReader L b = Raise e0 ->
        exists t, process_file L fs file_path (lit ".pdf") = Return (Text t)
                  /\ lit "Error extracting text from PDF:" `prefix_of` t).
Proof.
  intros Hin Hr.
  rewrite (process_file_handled L fs file_path file_ext f Hin), Hr.
  cbn [try_except mbind result_bind mret result_ret].
  split; [reflexivity |].
  split; [intros m H; apply Return_inj in H; exact (Text_neq_Error _ _ H) |].
  split; [discriminate |].
  intros b e0 Hb He0.
  exists (lit "Error extracting text from PDF: " ++ exc_str e0). split.
  - unfold process_file. apply process_file_with_return.
    rewrite dispatch_pdf. cbn [defined call_pdf].
    unfold extract_from_pdf, pdf_body, open_rb.
    rewrite Hb. cbn [mbind result_bind]. rewrite He0. reflexivity.
  - exists (32 :: exc_str e0). reflexivity.
Qed.

Lemma parse_failure_is_text_witness :
  process_file Sample.libs Sample.disk_empty Sample.path (lit ".pdf")
  = Return (Text (lit "Error extracting text from " ++ format_label PDF
                  ++ lit ": " ++ lit "Cannot read an empty file")).
Proof.
  assert (Hin : (lit ".pdf", PDF) ∈ format_of_ext).
  { apply list_elem_of_here. }
  assert (Hr : parsing Sample.libs Sample.disk_empty PDF Sample.path
               = Raise (Exception (lit "Cannot read an empty file"))).
  { vm_compute. reflexivity. }
  exact (proj1 (parse_failure_is_text Sample.libs Sample.disk_empty Sample.path
                  (lit ".pdf") PDF
                  (Exception (lit "Cannot read an empty file")) Hin Hr)).
Defined.

(** ** Loops that append to a string *)

(** A loop whose body appends to the accumulator one piece per element
    returns the accumulator followed by the pieces in order. *)
Lemma for_each_pieces {A B : Type}
  (body : str -> A -> result str) (piece : B -> str) (R : A -> B -> Prop) :
  (forall acc x y, R x y -> body acc x = Return (acc ++ piece y)) ->
  forall xs ys acc,
    Forall2 R xs ys ->
    for_each xs acc body = Return (acc ++ concat (map piece ys)).
Proof.
  intros Hbody xs ys acc H. revert acc.
  induction H as [| x y xs ys Hxy _ IH]; intros acc; cbn [for_each map concat].
  - now rewrite app_nil_r.
  - rewrite (Hbody acc x y Hxy). cbn [mbind result_bind].
    rewrite IH. now rewrite <- app_assoc.
Qed.

(** Pieces that each end with [sep] are the [sep]-joined texts followed by
    one more [sep]. *)
Lemma concat_terminated_join (sep : str) (texts : list str) :
  texts <> [] ->
  concat (map (fun t => t ++ sep) texts) = join sep texts ++ sep.
Proof.
  induction texts as [| t rest IH]; [congruence |]. intros _.
  destruct rest as [| t' rest'].
  - cbn. now rewrite app_nil_r.
  - change (concat (map (fun t => t ++ sep) (t :: t' :: rest')))
      with ((t ++ sep) ++ concat (map (fun t => t ++ sep) (t' :: rest'))).
    rewrite IH by discriminate.
    change (join sep (t :: t' :: rest')) with (t ++ sep ++ join sep (t' :: rest')).
    now rewrite <- !app_assoc.
Qed.

Lemma join_terminated_neq (sep : str) (texts : list str) :
  sep <> [] -> texts <> [] ->
  concat (map (fun t => t ++ sep) texts) <> join sep texts.
Proof.
  intros Hsep Hne H. rewrite concat_terminated_join in H by exact Hne.
  apply (f_equal length) in H. rewrite length_app in H.
  destruct sep; [congruence | cbn in H; lia].
Qed.

(** The indices [0 .. len(pages) - 1] paired with the page texts. *)
Lemma pages_by_index (pages : list PyPDF2.PageObject) (texts : list str) :
  Forall2 (fun pg t => PyPDF2.extract_text pg = Return t) pages texts ->
  Forall2 (fun i t => exists pg, pages !! i = Some pg
                                 /\ PyPDF2.extract_text pg = Return t)
    (seq 0 (length pages)) texts.
Proof.
  intros H. apply Forall2_same_length_lookup_2.
  - rewrite length_seq. now apply Forall2_length in H.
  - intros i n t Hn Ht. apply lookup_seq in Hn as [-> Hlt]. cbn.
    destruct (lookup_lt_is_Some_2 pages i Hlt) as [pg Hpg].
    exists pg. split; [exact Hpg |].
    exact (Forall2_lookup_lr _ _ _ _ _ _ H Hpg Ht).
Qed.

(** The body of [extract_from_pdf] on a readable file whose pages all
    extract. *)
Lemma pdf_body_pages
  (L : Libs) (fs : FS) (file_path : str) (b : bytes)
  (r : PyPDF2.PdfReader) (texts : list str) :
  fs !! file_path = Some b ->
  PdfReader L b = Return r ->
  Forall2 (fun pg t => PyPDF2.extract_text pg = Return t) (PyPDF2.pages r) texts ->
  pdf_body L fs file_path
  = Return (concat (map (fun t => t ++ nl ++ nl) texts)).
Proof.
  intros Hb Hr Hpages. unfold pdf_body, open_rb.
  rewrite Hb. cbn [mbind result_bind]. rewrite Hr. cbn [mbind result_bind].
  refine (for_each_pieces _ (fun t => t ++ nl ++ nl) _ _ _ _ []
            (pages_by_index _ _ Hpages)).
  intros acc i t (pg & Hpg & Ht). unfold getitem. rewrite Hpg.
  cbn [mbind result_bind]. rewrite Ht. reflexivity.
Qed.

(** The body of [extract_from_excel] on a workbook whose sheets all render:
    [rendered] lists each sheet's name with its rendered table. *)
Lemma excel_body_sheets
  (L : Libs) (fs : FS) (file_path : str)
  (sheets : list (str * pd.DataFrame)) (rendered : list (str * str)) :
  read_excel L fs file_path = Return sheets ->
  Forall2 (fun sh nt => sh.1 = nt.1 /\ pd.to_string sh.2 = Return nt.2)
    sheets rendered ->
  excel_body L fs file_path
  = Return (concat (map (fun nt => (lit "Sheet: " ++ nt.1 ++ nl)
                                   ++ (nt.2 ++ nl ++ nl)) rendered)).
Proof.
  intros Hr Hsheets. unfold excel_body. rewrite Hr. cbn [mbind result_bind].
  refine (for_each_pieces _
            (fun nt : str * str => (lit "Sheet: " ++ nt.1 ++ nl)
                                   ++ (nt.2 ++ nl ++ nl)) _ _ _ _ [] Hsheets).
  intros acc [name df] [name' t] [Hn Ht]. cbn [fst snd] in *. subst name'.
  rewrite Ht. cbn [mbind result_bind mret result_ret].
  now rewrite <- app_assoc.
Qed.

(** ** The text of a PDF *)

(** C4, as the code has it. For a [.pdf] file that [PdfReader] opens and whose
    pages all extract, the text is the concatenation, in page order, of each
    page's text followed by a blank-line terminator (two line feeds): every
    page, the last one included, is followed by the terminator. For a
    document with at least one page this is the page texts joined by the
    terminator, followed by one more terminator. *)
Theorem pdf_pages_terminated
  (L : Libs) (fs : FS) (file_path : str) (b : bytes)
  (r : PyPDF2.PdfReader) (texts : list str) :
  fs !! file_path = Some b ->
  PdfReader L b = Return r ->
  Forall2 (fun pg t => PyPDF2.extract_text pg = Return t) (PyPDF2.pages r) texts ->
  process_file L fs file_path (lit ".pdf")
  = Return (Text (concat (map (fun t => t ++ nl ++ nl) texts)))
  /\ (texts <> [] ->
      concat (map (fun t => t ++ nl ++ nl) texts)
      = join (nl ++ nl) texts ++ nl ++ nl).
Proof.
  intros Hb Hr Hpages. split.
  - unfold process_file. apply process_file_with_return.
    rewrite dispatch_pdf. cbn [defined call_pdf]. unfold extract_from_pdf.
    now rewrite (pdf_body_pages L fs file_path b r texts Hb Hr Hpages).
  - intros Hne. exact (concat_terminated_join (nl ++ nl) texts Hne).
Qed.

Lemma pdf_pages_terminated_witness :
  process_file Sample.libs Sample.disk Sample.path (lit ".pdf")
  = Return (Text (concat (map (fun t => t ++ nl ++ nl)
                            [lit "A"; lit "B"; lit "C"]))).
Proof.
  refine (proj1 (pdf_pages_terminated Sample.libs Sample.disk Sample.path
                   [x25; x50; x44; x46]
                   {| PyPDF2.pages := [Sample.page "A"; Sample.page "B";
                                       Sample.page "C"] |}
                   [lit "A"; lit "B"; lit "C"] _ _ _)).
  - vm_compute. reflexivity.
  - reflexivity.
  - repeat constructor.
Defined.

(** C4, as the claim has it, fails: a three-page PDF with the page texts
    "A", "B" and "C" gives "A\n\nB\n\nC\n\n", which is not the three texts
    joined by blank lines ("A\n\nB\n\nC"). *)
Lemma pdf_three_pages_not_joined :
  Sample.disk !! Sample.path = Some [x25; x50; x44; x46]
  /\ PdfReader Sample.libs [x25; x50; x44; x46]
     = Return {| PyPDF2.pages := [Sample.page "A"; Sample.page "B";
                                  Sample.page "C"] |}
  /\ process_file Sample.libs Sample.disk Sample.path (lit ".pdf")
     = Return (Text [65; LF; LF; 66; LF; LF; 67; LF; LF])
  /\ join (nl ++ nl) [lit "A"; lit "B"; lit "C"] = [65; LF; LF; 66; LF; LF; 67]
  /\ process_file Sample.libs Sample.disk Sample.path (lit ".pdf")
     <> Return (Text (join (nl ++ nl) [lit "A"; lit "B"; lit "C"])).
Proof.
  split; [vm_compute; reflexivity |]. split; [reflexivity |].
  assert (H : process_file Sample.libs Sample.disk Sample.path (lit ".pdf")
              = Return (Text [65; LF; LF; 66; LF; LF; 67; LF; LF]))
    by (vm_compute; reflexivity).
  split; [exact H |]. split; [reflexivity |].
  rewrite H. intros E. apply Return_inj, Text_inj in E. discriminate E.
Qed.

(** ** The text of a workbook *)

(** C7. For a [.xls] or [.xlsx] file that [read_excel] opens and whose sheets
    all render, the text is built sheet by sheet in the stored order: the
    label "Sheet: <name>" and a line feed, the sheet's rendered table, and a
    blank line. For a workbook with the sheets "Sheet1" and "Data" it is
    "Sheet: Sheet1", the first table, a blank line, "Sheet: Data", the second
    table and a blank line, in this order. *)
Theorem excel_sheets_labelled
  (L : Libs) (fs : FS) (file_path file_ext : str)
  (sheets : list (str * pd.DataFrame)) (rendered : list (str * str)) :
  file_ext ∈ [lit ".xls"; lit ".xlsx"] ->
  read_excel L fs file_path = Return sheets ->
  Forall2 (fun sh nt => sh.1 = nt.1 /\ pd.to_string sh.2 = Return nt.2)
    sheets rendered ->
  process_file L fs file_path file_ext
  = Return (Text (concat (map (fun nt => lit "Sheet: " ++ nt.1 ++ nl
                                         ++ nt.2 ++ nl ++ nl) rendered)))
  /\ (forall t1 t2,
        rendered = [(lit "Sheet1", t1); (lit "Data", t2)] ->
        process_file L fs file_path file_ext
        = Return (Text (lit "Sheet: Sheet1" ++ nl ++ t1 ++ nl ++ nl
                        ++ lit "Sheet: Data" ++ nl ++ t2 ++ nl ++ nl))).
Proof.
  intros Hext Hr Hsheets.
  assert (H : process_file L fs file_path file_ext
              = Return (Text (concat (map (fun nt => lit "Sheet: " ++ nt.1 ++ nl
                                             ++ nt.2 ++ nl ++ nl) rendered)))).
  { unfold process_file. apply process_file_with_return.
    assert (Hd : dispatch (defined L fs) file_path file_ext
                 = extract_from_excel L fs file_path).
    { rewrite !elem_of_cons, elem_of_nil in Hext.
      destruct Hext as [-> | [-> | []]]; reflexivity. }
    rewrite Hd. unfold extract_from_excel.
    rewrite (excel_body_sheets L fs file_path sheets rendered Hr Hsheets).
    cbn [try_except]. do 2 f_equal. apply map_ext. intros [name t].
    cbn [fst snd]. now rewrite <- !app_assoc. }
  split; [exact H |].
  intros t1 t2 ->. rewrite H. cbn [map concat fst snd].
  do 2 f_equal. rewrite app_nil_r. rewrite <- !app_assoc. reflexivity.
Qed.

Lemma excel_sheets_labelled_witness :
  process_file Sample.libs Sample.disk Sample.path (lit ".xlsx")
  = Return (Text (lit "Sheet: Sheet1" ++ nl ++ lit "   a" ++ nl ++ nl
                  ++ lit "Sheet: Data" ++ nl ++ lit "   b" ++ nl ++ nl)).
Proof.
  assert (Hext : lit ".xlsx" ∈ [lit ".xls"; lit ".xlsx"]).
  { apply list_elem_of_further, list_elem_of_here. }
  assert (Hr : read_excel Sample.libs Sample.disk Sample.path
               = Return [(lit "Sheet1", Sample.frame "   a");
                         (lit "Data", Sample.frame "   b")]).
  { vm_compute. reflexivity. }
  assert (Hs : Forall2 (fun (sh : str * pd.DataFrame) (nt : str * str) =>
                          sh.1 = nt.1 /\ pd.to_string sh.2 = Return nt.2)
                 [(lit "Sheet1", Sample.frame "   a");
                  (lit "Data", Sample.frame "   b")]
                 [(lit "Sheet1", lit "   a"); (lit "Data", lit "   b")]).
  { repeat constructor. }
  exact (proj2 (excel_sheets_labelled Sample.libs Sample.disk Sample.path
                  (lit ".xlsx") _ _ Hext Hr Hs)
           (lit "   a") (lit "   b") eq_refl).
Defined.


(** ** The lenient decoder *)

(** Division and remainder by a constant, for [lia]. *)
Ltac Zify.zify_post_hook ::= Z.to_euclidean_division_equations.

(** Decide every comparison [x <? y] of the goal, dropping the cases that
    arithmetic excludes. *)
Ltac ltb_cases :=
  repeat match goal with
         | |- context [?x <? ?y] => destruct (N.ltb_spec x y); try lia
         | |- context [?x <=? ?y] => destruct (N.leb_spec x y); try lia
         | |- context [?x =? ?y] => destruct (N.eqb_spec x y); try lia
         end.

Lemma byte_value (b : N) : b < 256 -> exists x : byte, b = Byte.to_N x.
Proof.
  intros H. destruct (Byte.of_N b) as [x |] eqn:E.
  - exists x. symmetry. now apply Byte.to_of_N.
  - apply Byte.of_N_None_iff in E. lia.
Qed.

(** On a byte, the mask test is the range [0x80 .. 0xBF]. *)
Lemma is_continuation_byte_range (b : N) :
  b < 256 -> is_continuation_byte b = (0x80 <=? b) && (b <? 0xC0).
Proof.
  intros H. destruct (byte_value b H) as [x ->]. destruct x; reflexivity.
Qed.

Lemma decode2_value (a b : N) : decode2 a b = a * 64 + b - 0x3080.
Proof. unfold decode2. rewrite !N.shiftl_mul_pow2. reflexivity. Qed.

Lemma decode3_value (a b c : N) :
  decode3 a b c = a * 4096 + b * 64 + c - 0xE2080.
Proof. unfold decode3. rewrite !N.shiftl_mul_pow2. reflexivity. Qed.

Lemma decode4_value (a b c d : N) :
  decode4 a b c d = a * 262144 + b * 4096 + c * 64 + d - 0x3C82080.
Proof. unfold decode4. rewrite !N.shiftl_mul_pow2. reflexivity. Qed.

(** The bytes of an encoded scalar. *)
Lemma utf8_encode_char_bytes (c : N) :
  is_scalar c -> Forall (fun b => b < 256) (utf8_encode_char c).
Proof.
  unfold is_scalar, utf8_encode_char. intros H.
  ltb_cases; repeat constructor; lia.
Qed.

Lemma utf8_encode_char_nonempty (c : N) : utf8_encode_char c <> [].
Proof. unfold utf8_encode_char. ltb_cases; discriminate. Qed.

(** Decoding what encodes one scalar gives the scalar back and resumes
    after it. *)
Lemma decode_encode_char (c : N) (rest : list N) :
  is_scalar c ->
  utf8_decode_replace (utf8_encode_char c ++ rest) = c :: utf8_decode_replace rest.
Proof.
  unfold is_scalar, utf8_encode_char. intros H.
  destruct (N.ltb_spec c 0x80); [| destruct (N.ltb_spec c 0x800);
                                   [| destruct (N.ltb_spec c 0x10000)]];
    cbn [app utf8_decode_replace];
    rewrite ?is_continuation_byte_range by lia;
    unfold bad_second_of_3, bad_second_of_4;
    rewrite ?decode2_value, ?decode3_value, ?decode4_value;
    ltb_cases; cbn [negb orb andb]; f_equal; lia.
Qed.

Lemma utf8_decode_encode (s : list N) (rest : list N) :
  Forall is_scalar s ->
  utf8_decode_replace (utf8_encode s ++ rest) = s ++ utf8_decode_replace rest.
Proof.
  induction 1 as [| c s Hc _ IH]; [reflexivity |].
  unfold utf8_encode in *. cbn [map concat].
  rewrite <- app_assoc, (decode_encode_char c _ Hc), IH. reflexivity.
Qed.


(** One step of the decoder on bytes: it writes the marker, or it reads the
    encoding of one scalar and resumes after it. *)
Lemma decode_step (bs : list N) :
  Forall (fun b => b < 256) bs -> bs <> [] ->
  (exists rest, utf8_decode_replace bs = REPLACEMENT :: rest)
  \/ (exists c s', is_scalar c /\ bs = utf8_encode_char c ++ s'
                   /\ utf8_decode_replace bs = c :: utf8_decode_replace s').
Proof.
  intros Hb Hne. destruct bs as [| ch s1]; [congruence |]. clear Hne.
  apply Forall_cons in Hb as [Hch Hb].
  cbn [utf8_decode_replace].
  destruct (N.ltb_spec ch 0x80).
  { right. exists ch, s1. unfold is_scalar, utf8_encode_char.
    split; [lia |]. split; [| reflexivity]. ltb_cases. reflexivity. }
  destruct (N.ltb_spec ch 0xE0).
  { destruct (N.ltb_spec ch 0xC2); [left; eauto |].
    destruct s1 as [| ch2 s2]; [left; eauto |].
    apply Forall_cons in Hb as [Hch2 Hb].
    rewrite (is_continuation_byte_range ch2 Hch2).
    destruct (N.leb_spec 0x80 ch2); [| left; cbn; eauto].
    destruct (N.ltb_spec ch2 0xC0); [| left; cbn; eauto].
    cbn [negb andb]. right. exists (decode2 ch ch2), s2.
    rewrite decode2_value. unfold is_scalar, utf8_encode_char.
    split; [lia |]. split; [| reflexivity].
    ltb_cases. cbn [app]. do 2 f_equal; [lia |]. f_equal. lia. }
  destruct (N.ltb_spec ch 0xF0).
  { destruct s1 as [| ch2 s2]; [left; eauto |].
    apply Forall_cons in Hb as [Hch2 Hb].
    rewrite (is_continuation_byte_range ch2 Hch2). unfold bad_second_of_3.
    destruct (N.leb_spec 0x80 ch2); [| left; cbn; eauto].
    destruct (N.ltb_spec ch2 0xC0); [| left; cbn; eauto].
    cbn [negb andb orb].
    destruct (N.ltb_spec ch2 0xA0);
      [destruct (N.eqb_spec ch 0xE0) | destruct (N.eqb_spec ch 0xED)];
      try (left; eauto; fail).
    all: destruct s2 as [| ch3 s3]; [left; eauto |].
    all: apply Forall_cons in Hb as [Hch3 Hb].
    all: rewrite (is_continuation_byte_range ch3 Hch3).
    all: destruct (N.leb_spec 0x80 ch3); [| left; cbn; eauto].
    all: destruct (N.ltb_spec ch3 0xC0); [| left; cbn; eauto].
    all: cbn [negb andb]; right; exists (decode3 ch ch2 ch3), s3.
    all: rewrite decode3_value; unfold is_scalar, utf8_encode_char.
    all: split; [lia |]; split; [| reflexivity].
    all: ltb_cases; cbn [app]; repeat f_equal; lia. }
  destruct (N.ltb_spec ch 0xF5); [| left; eauto].
  destruct s1 as [| ch2 s2]; [left; eauto |].
  apply Forall_cons in Hb as [Hch2 Hb].
  rewrite (is_continuation_byte_range ch2 Hch2). unfold bad_second_of_4.
  destruct (N.leb_spec 0x80 ch2); [| left; cbn; eauto].
  destruct (N.ltb_spec ch2 0xC0); [| left; cbn; eauto].
  cbn [negb andb orb].
  destruct (N.ltb_spec ch2 0x90);
    [destruct (N.eqb_spec ch 0xF0) | destruct (N.eqb_spec ch 0xF4)];
    try (left; eauto; fail).
  all: destruct s2 as [| ch3 s3]; [left; eauto |].
  all: apply Forall_cons in Hb as [Hch3 Hb].
  all: rewrite (is_continuation_byte_range ch3 Hch3).
  all: destruct (N.leb_spec 0x80 ch3); [| left; cbn; eauto].
  all: destruct (N.ltb_spec ch3 0xC0); [| left; cbn; eauto].
  all: cbn [negb andb].
  all: destruct s3 as [| ch4 s4]; [left; eauto |].
  all: apply Forall_cons in Hb as [Hch4 Hb].
  all: rewrite (is_continuation_byte_range ch4 Hch4).
  all: destruct (N.leb_spec 0x80 ch4); [| left; cbn; eauto].
  all: destruct (N.ltb_spec ch4 0xC0); [| left; cbn; eauto].
  all: cbn [negb andb]; right; exists (decode4 ch ch2 ch3 ch4), s4.
  all: rewrite decode4_value; unfold is_scalar, utf8_encode_char.
  all: split; [lia |]; split; [| reflexivity].
  all: ltb_cases; cbn [app]; repeat f_equal; lia.
Qed.


(** When the decoder writes no marker, its output is a sequence of scalars
    whose encoding is the input. *)
Lemma decode_without_marker (n : nat) :
  forall bs : list N,
    (length bs <= n)%nat ->
    Forall (fun b => b < 256) bs ->
    REPLACEMENT ∉ utf8_decode_replace bs ->
    Forall is_scalar (utf8_decode_replace bs)
    /\ utf8_encode (utf8_decode_replace bs) = bs.
Proof.
  induction n as [| n IH]; intros bs Hlen Hb Hno.
  - destruct bs; [split; [constructor | reflexivity] | cbn in Hlen; lia].
  - destruct bs as [| ch s1]; [split; [constructor | reflexivity] |].
    destruct (decode_step (ch :: s1) Hb ltac:(discriminate))
      as [[rest E] | (c & s' & Hc & Hbs & E)].
    + rewrite E in Hno. exfalso. apply Hno. apply list_elem_of_here.
    + rewrite E in Hno |- *. apply not_elem_of_cons in Hno as [_ Hno].
      assert (Hlen' : (length s' <= n)%nat).
      { apply (f_equal length) in Hbs. rewrite length_app in Hbs.
        pose proof (utf8_encode_char_nonempty c) as Hne.
        destruct (utf8_encode_char c); [congruence |].
        cbn [length] in *. lia. }
      assert (Hb' : Forall (fun b => b < 256) s').
      { rewrite Hbs in Hb. now apply Forall_app in Hb as [_ Hb]. }
      destruct (IH s' Hlen' Hb' Hno) as [Hs He].
      split; [now constructor |].
      unfold utf8_encode in *. cbn [map concat]. now rewrite He, Hbs.
Qed.

(** Bytes that are not valid UTF-8 leave a marker in the decoded text. *)
Lemma decode_invalid_marker (b : list byte) :
  ~ valid_utf8 b -> REPLACEMENT ∈ utf8_decode_replace (map Byte.to_N b).
Proof.
  intros Hinv.
  destruct (decide (REPLACEMENT ∈ utf8_decode_replace (map Byte.to_N b)))
    as [Hin | Hno]; [exact Hin |].
  exfalso. apply Hinv.
  assert (Hb : Forall (fun x => x < 256) (map Byte.to_N b)).
  { apply Forall_map, Forall_forall. intros x _. cbn.
    pose proof (Byte.to_N_bounded x). lia. }
  destruct (decode_without_marker _ _ (le_n _) Hb Hno) as [Hs He].
  exists (utf8_decode_replace (map Byte.to_N b)). split; assumption.
Qed.

(** Valid UTF-8 decodes to the scalars it encodes. *)
Lemma decode_valid (b : list byte) (s : list N) :
  Forall is_scalar s -> utf8_encode s = map Byte.to_N b ->
  utf8_decode_replace (map Byte.to_N b) = s.
Proof.
  intros Hs He. rewrite <- He.
  rewrite <- (app_nil_r (utf8_encode s)), (utf8_decode_encode s [] Hs).
  apply app_nil_r.
Qed.

(** The newline translation keeps every character other than a carriage
    return and a line feed. *)
Lemma universal_newlines_keeps (c : N) (n : nat) :
  forall s : list N,
    (length s <= n)%nat -> c <> CR -> c <> LF ->
    c ∈ s -> c ∈ universal_newlines s.
Proof.
  induction n as [| n IH]; intros s Hlen Hcr Hlf Hin.
  - destruct s; [exact Hin | cbn in Hlen; lia].
  - destruct s as [| x s1]; [exact Hin |]. cbn [length] in Hlen.
    cbn [universal_newlines].
    apply elem_of_cons in Hin as [-> | Hin].
    + destruct (N.eqb_spec x CR); [congruence |]. apply list_elem_of_here.
    + destruct (N.eqb_spec x CR) as [-> |].
      * apply list_elem_of_further. destruct s1 as [| c2 s2]; [exact Hin |].
        cbn [length] in Hlen.
        destruct (N.eqb_spec c2 LF) as [-> |].
        -- apply elem_of_cons in Hin as [-> | Hin]; [congruence |].
           apply IH; [lia | assumption..].
        -- apply IH; [cbn [length]; lia | assumption..].
      * apply list_elem_of_further. apply IH; [lia | assumption..].
Qed.

Lemma read_text_invalid_marker (b : list byte) :
  ~ valid_utf8 b -> REPLACEMENT ∈ read_text b.
Proof.
  intros H. unfold read_text.
  apply (universal_newlines_keeps REPLACEMENT _ _ (le_n _));
    [discriminate | discriminate |].
  now apply decode_invalid_marker.
Qed.

(** The handler of [.txt] on a file that exists. *)
Lemma extract_from_txt_file (L : Libs) (fs : FS)
  (file_path : str) (b : bytes) :
  fs !! file_path = Some b ->
  extract_from_txt L fs file_path = Return (read_text b).
Proof.
  intros Hb. unfold extract_from_txt, txt_body, open_read_text, open_rb.
  now rewrite Hb.
Qed.

(** ** The letter case of the extension *)

Lemma rfind_from_app (c : N) (p q : str) (i last : Z) :
  rfind_from c (p ++ q) i last
  = rfind_from c q (i + Z.of_nat (length p))%Z (rfind_from c p i last).
Proof.
  revert i last. induction p as [| x p IH]; intros i last; cbn [app rfind_from length].
  - f_equal. lia.
  - rewrite IH. f_equal. lia.
Qed.

(** A name made of a stem without dots or slashes, a dot and a suffix
    without dots or slashes splits at that dot. *)
Lemma splitext_stem_suffix (stem e : str) :
  stem <> [] -> sep ∉ stem -> extsep ∉ stem -> sep ∉ e -> extsep ∉ e ->
  splitext (stem ++ extsep :: e) = (stem, extsep :: e).
Proof.
  intros Hne Hs1 Hd1 Hs2 Hd2. unfold splitext, rfind.
  assert (Hsep : rfind_from sep (stem ++ extsep :: e) 0 (-1) = (-1)%Z).
  { apply rfind_from_absent. rewrite elem_of_app, elem_of_cons.
    intros [H | [H | H]]; [tauto | discriminate H | tauto]. }
  assert (Hdot : rfind_from extsep (stem ++ extsep :: e) 0 (-1)
                 = Z.of_nat (length stem)).
  { rewrite rfind_from_app, (rfind_from_absent extsep stem 0 (-1) Hd1).
    cbn [rfind_from]. rewrite N.eqb_refl.
    now rewrite (rfind_from_absent extsep e _ _ Hd2). }
  rewrite Hsep, Hdot.
  destruct stem as [| c stem']; [congruence |].
  apply not_elem_of_cons in Hd1 as [Hc _].
  replace (Z.of_nat (length (c :: stem')) - (-1 + 1))%Z
    with (Z.of_nat (S (length stem'))) by (cbn [length]; lia).
  rewrite Nat2Z.id. cbn [has_non_dot].
  assert (Hone : slice_one ((c :: stem') ++ extsep :: e) (-1 + 1) = [c])
    by reflexivity.
  rewrite Hone, bool_decide_eq_true_2 by congruence.
  destruct (Z.ltb_spec (-1) (Z.of_nat (length (c :: stem'))));
    [| cbn [length] in *; lia].
  cbn [andb]. unfold slice_to, slice_from. rewrite Nat2Z.id.
  f_equal; [apply take_app_length | apply drop_app_length].
Qed.

Lemma ascii_lower_below (c : N) : c < 128 -> ascii_lower c < 128.
Proof. unfold ascii_lower. intros H. ltb_cases; cbn [andb]; lia. Qed.

Lemma ascii_lower_idempotent (c : N) : ascii_lower (ascii_lower c) = ascii_lower c.
Proof.
  unfold ascii_lower.
  destruct (N.leb_spec 65 c), (N.leb_spec c 90); cbn [andb];
    ltb_cases; cbn [andb]; reflexivity || lia.
Qed.

Lemma ascii_lower_not_letter (c x : N) :
  x < 65 -> ascii_lower c = x -> c = x.
Proof. unfold ascii_lower. intros Hx. ltb_cases; cbn [andb]; lia. Qed.

(** [lower] on an all-ASCII string does not consult the Unicode tables. *)
Lemma lower_ascii (ul : str -> str) (s : str) :
  Forall (fun c => c < 128) s -> lower ul s = map ascii_lower s.
Proof.
  intros H. unfold lower.
  replace (forallb (fun c => c <? 128) s) with true; [reflexivity |].
  symmetry. apply forallb_forall. intros c Hc.
  rewrite Forall_forall in H. apply N.ltb_lt, H. now apply list_elem_of_In.
Qed.

Lemma map_ascii_lower_absent (x : N) (e : str) :
  x < 65 -> x ∉ e -> x ∉ map ascii_lower e.
Proof.
  intros Hx Hno Hin. apply list_elem_of_fmap in Hin as (c & Hc & Hin).
  symmetry in Hc. apply (ascii_lower_not_letter c x Hx) in Hc. congruence.
Qed.

(** The extension that the endpoint hands to [process_file] for a name with
    an ASCII suffix: the suffix in lower case. *)
Lemma endpoint_extension (ul : str -> str) (stem e : str) :
  stem <> [] -> sep ∉ stem -> extsep ∉ stem ->
  Forall (fun c => c < 128) e -> sep ∉ e -> extsep ∉ e ->
  lower ul (splitext (stem ++ extsep :: e)).2 = extsep :: map ascii_lower e.
Proof.
  intros Hne Hs1 Hd1 Ha Hs2 Hd2.
  rewrite (splitext_stem_suffix stem e Hne Hs1 Hd1 Hs2 Hd2). cbn [snd].
  rewrite lower_ascii; [reflexivity |].
  constructor; [unfold extsep; lia | exact Ha].
Qed.

(** C3, as the claim has it, fails: given ".PDF", [process_file] takes the
    fallback branch whatever the methods are, while given the lower-case
    ".pdf" it calls the PDF handler; on the sample file the two results
    differ. *)
Lemma process_file_is_case_sensitive :
  lower (unicode_lower Sample.libs) (lit ".PDF") = lit ".pdf"
  /\ process_file Sample.libs Sample.disk Sample.path (lit ".PDF")
     = Return (Text (lit "Unsupported file format: .PDF"))
  /\ process_file Sample.libs Sample.disk Sample.path
       (lower (unicode_lower Sample.libs) (lit ".PDF"))
     = Return (Text [65; LF; LF; 66; LF; LF; 67; LF; LF])
  /\ (forall M p, dispatch M p (lit ".PDF")
                  = Return (lit "Unsupported file format: .PDF"))
  /\ (forall M p, dispatch M p (lower (unicode_lower Sample.libs) (lit ".PDF"))
                  = call_pdf M p)
  /\ process_file Sample.libs Sample.disk Sample.path (lit ".PDF")
     <> process_file Sample.libs Sample.disk Sample.path
          (lower (unicode_lower Sample.libs) (lit ".PDF")).
Proof.
  assert (H1 : process_file Sample.libs Sample.disk Sample.path (lit ".PDF")
               = Return (Text (lit "Unsupported file format: .PDF")))
    by (vm_compute; reflexivity).
  assert (H2 : process_file Sample.libs Sample.disk Sample.path
                 (lower (unicode_lower Sample.libs) (lit ".PDF"))
               = Return (Text [65; LF; LF; 66; LF; LF; 67; LF; LF]))
    by (vm_compute; reflexivity).
  split; [reflexivity |]. split; [exact H1 |]. split; [exact H2 |].
  split; [intros M p; reflexivity |]. split; [intros M p; reflexivity |].
  rewrite H1, H2. intros E. apply Return_inj, Text_inj in E. discriminate E.
Qed.


(** ** The endpoint and its temporary file *)

(** X1. The endpoint cleans up after itself on every path: when the name of
    the temporary file is fresh, the file system after the call is the file
    system before it, whether the upload could be read or not and whatever
    the handlers did. *)
Theorem extract_text_restores_files
  (L : Libs) (fs : FS) (temp_name : str) (file : UploadFile) :
  fs !! temp_name = None ->
  (extract_text L fs temp_name file).2 = fs.
Proof.
  intros Hfresh. unfold extract_text.
  destruct (read file) as [contents | e]; cbn [snd].
  - rewrite insert_insert_eq, delete_insert_id by exact Hfresh. reflexivity.
  - rewrite delete_insert_id by exact Hfresh. reflexivity.
Qed.

Lemma extract_text_restores_files_witness :
  (extract_text Sample.libs Sample.disk (lit "/tmp/tmpzz99")
     {| filename := lit "a.pdf"; read := Return [x25; x50] |}).2 = Sample.disk.
Proof.
  apply (extract_text_restores_files Sample.libs Sample.disk (lit "/tmp/tmpzz99")).
  vm_compute. reflexivity.
Defined.

(** An upload that can be read is answered with a JSON body that has the
    key "text". *)
Lemma extract_text_json
  (L : Libs) (fs : FS) (temp_name : str) (file : UploadFile) (contents : bytes) :
  read file = Return contents ->
  exists t, (extract_text L fs temp_name file).1 = JSON (Text t).
Proof.
  intros Hr. unfold extract_text. rewrite Hr.
  destruct (process_file_text L (<[temp_name := contents]> (<[temp_name := []]> fs))
              temp_name
              (lower (unicode_lower L) (splitext (filename file)).2)) as [t Ht].
  exists t. rewrite Ht. reflexivity.
Qed.

(** X4. With the handlers the class defines, [process_file] never raises and
    never returns the error shape: for every extension, file system and
    behaviour of the libraries the result is a dictionary with the key
    "text". *)
Theorem process_file_always_text
  (L : Libs) (fs : FS) (file_path file_ext : str) :
  (exists t, process_file L fs file_path file_ext = Return (Text t))
  /\ (forall m, process_file L fs file_path file_ext <> Return (Error m))
  /\ (forall e, process_file L fs file_path file_ext <> Raise e).
Proof.
  destruct (process_file_text L fs file_path file_ext) as [t Ht].
  split; [eauto |]. rewrite Ht. split.
  - intros m H. apply Return_inj in H. exact (Text_neq_Error _ _ H).
  - discriminate.
Qed.


(** ** Loops that fail part-way *)

Lemma for_each_app {A S : Type} (xs ys : list A) (acc : S)
  (body : S -> A -> result S) :
  for_each (xs ++ ys) acc body
  = acc' ← for_each xs acc body; for_each ys acc' body.
Proof.
  revert acc. induction xs as [| x xs IH]; intros acc; cbn [app for_each].
  - reflexivity.
  - destruct (body acc x) as [acc' | e]; cbn [mbind result_bind]; [apply IH | reflexivity].
Qed.

(** A loop whose body raises at some element, after elements that all
    append their piece, raises that exception: what was accumulated is lost. *)
Lemma for_each_raises {A B : Type}
  (body : str -> A -> result str) (piece : B -> str) (R : A -> B -> Prop)
  (pre : list A) (x : A) (post : list A) (ys : list B) (acc : str) (e : exc) :
  (forall acc x y, R x y -> body acc x = Return (acc ++ piece y)) ->
  Forall2 R pre ys ->
  (forall acc, body acc x = Raise e) ->
  for_each (pre ++ x :: post) acc body = Raise e.
Proof.
  intros Hbody Hpre Hx.
  rewrite for_each_app, (for_each_pieces body piece R Hbody pre ys acc Hpre).
  cbn [mbind result_bind for_each]. now rewrite Hx.
Qed.

(** ** More on the text of a PDF *)

(** X5. Extraction of a PDF is all or nothing: when a page fails to extract
    after pages that extracted, the text of the earlier pages is discarded
    and the result is the text "Error extracting text from PDF: " followed
    by the message of the failure. *)
Theorem pdf_failing_page_discards_text
  (L : Libs) (fs : FS) (file_path : str) (b : bytes) (r : PyPDF2.PdfReader)
  (pre : list PyPDF2.PageObject) (pg : PyPDF2.PageObject)
  (post : list PyPDF2.PageObject) (texts : list str) (e : exc) :
  fs !! file_path = Some b ->
  PdfReader L b = Return r ->
  PyPDF2.pages r = pre ++ pg :: post ->
  Forall2 (fun p t => PyPDF2.extract_text p = Return t) pre texts ->
  PyPDF2.extract_text pg = Raise e ->
  process_file L fs file_path (lit ".pdf")
  = Return (Text (lit "Error extracting text from PDF: " ++ exc_str e)).
Proof.
  intros Hb Hr Hpages Hpre Hpg.
  unfold process_file. apply process_file_with_return.
  rewrite dispatch_pdf. cbn [defined call_pdf].
  unfold extract_from_pdf, pdf_body, open_rb.
  rewrite Hb. cbn [mbind result_bind]. rewrite Hr. cbn [mbind result_bind].
  rewrite Hpages, length_app. cbn [length].
  rewrite seq_app. cbn [seq].
  rewrite (for_each_raises _ (fun t => t ++ nl ++ nl)
             (fun i t => exists p, pre !! i = Some p
                                   /\ PyPDF2.extract_text p = Return t)
             (seq 0 (length pre)) (0 + length pre)%nat _ texts [] e).
  - reflexivity.
  - intros acc i t (p & Hp & Ht). unfold getitem.
    rewrite (lookup_app_l_Some _ _ _ _ Hp). cbn [mbind result_bind].
    rewrite Ht. reflexivity.
  - now apply pages_by_index.
  - intros acc. unfold getitem.
    rewrite lookup_app_r by (cbn; lia).
    replace (0 + length pre - length pre)%nat with 0%nat by lia.
    cbn [lookup list_lookup mbind result_bind]. now rewrite Hpg.
Qed.

Lemma pdf_failing_page_discards_text_witness :
  process_file Faulty.libs Sample.disk Sample.path (lit ".pdf")
  = Return (Text (lit "Error extracting text from PDF: " ++ lit "bad stream")).
Proof.
  refine (pdf_failing_page_discards_text Faulty.libs Sample.disk Sample.path
            [x25; x50; x44; x46]
            {| PyPDF2.pages := [Sample.page "A"; Faulty.bad_page] |}
            [Sample.page "A"] Faulty.bad_page [] [lit "A"]
            (Exception (lit "bad stream")) _ eq_refl eq_refl _ eq_refl).
  - vm_compute. reflexivity.
  - repeat constructor.
Defined.

(** X6. For a PDF whose pages all extract, the text is empty exactly when the
    document has no page: a page contributes its terminator even when its
    own text is empty. *)
Theorem pdf_text_empty_iff_no_page
  (L : Libs) (fs : FS) (file_path : str) (b : bytes)
  (r : PyPDF2.PdfReader) (texts : list str) :
  fs !! file_path = Some b ->
  PdfReader L b = Return r ->
  Forall2 (fun pg t => PyPDF2.extract_text pg = Return t) (PyPDF2.pages r) texts ->
  process_file L fs file_path (lit ".pdf") = Return (Text [])
  <-> PyPDF2.pages r = [].
Proof.
  intros Hb Hr Hpages.
  assert (H : process_file L fs file_path (lit ".pdf")
              = Return (Text (concat (map (fun t => t ++ nl ++ nl) texts)))).
  { unfold process_file. apply process_file_with_return.
    rewrite dispatch_pdf. cbn [defined call_pdf]. unfold extract_from_pdf.
    now rewrite (pdf_body_pages L fs file_path b r texts Hb Hr Hpages). }
  rewrite H. split.
  - intros E. apply Return_inj, Text_inj in E.
    destruct Hpages as [| pg t pages texts' _ _]; [reflexivity |].
    cbn [map concat] in E. apply (f_equal length) in E.
    rewrite !length_app in E. cbn [length nl] in E. lia.
  - intros E. rewrite E in Hpages. apply Forall2_nil_inv_l in Hpages as ->.
    reflexivity.
Qed.

Lemma pdf_text_empty_iff_no_page_witness :
  process_file Sample.libs Sample.disk Sample.path (lit ".pdf") = Return (Text [])
  <-> [Sample.page "A"; Sample.page "B"; Sample.page "C"] = [].
Proof.
  refine (pdf_text_empty_iff_no_page Sample.libs Sample.disk Sample.path
            [x25; x50; x44; x46]
            {| PyPDF2.pages := [Sample.page "A"; Sample.page "B";
                                Sample.page "C"] |}
            [lit "A"; lit "B"; lit "C"] _ eq_refl _).
  - vm_compute. reflexivity.
  - repeat constructor.
Defined.


(** ** The text of a slide deck *)

(** The inner loop of [extract_from_pptx] over the shapes of one slide. *)
Lemma pptx_shapes_loop (shapes : list pptx.Shape) :
  forall (ts : list str) (acc : str),
    Forall2 (fun sh t => pptx.text sh = Return t)
      (List.filter pptx.has_text shapes) ts ->
    for_each shapes acc
      (fun text shape =>
         if pptx.has_text shape
         then t ← pptx.text shape; mret (text ++ (t ++ nl))
         else mret text)
    = Return (acc ++ concat (map (fun t => t ++ nl) ts)).
Proof.
  induction shapes as [| sh shapes IH]; intros ts acc H; cbn [List.filter] in H.
  - apply Forall2_nil_inv_l in H as ->. cbn. now rewrite app_nil_r.
  - cbn [for_each]. destruct (pptx.has_text sh).
    + apply Forall2_cons_inv_l in H as (t & ts' & Ht & Hts & ->).
      rewrite Ht. cbn [mbind result_bind mret result_ret].
      rewrite (IH ts' _ Hts). cbn [map concat]. now rewrite <- app_assoc.
    + cbn [mbind result_bind mret result_ret]. now apply IH.
Qed.

(** X7. For a [.pptx] file that [Presentation] opens, the text is built slide
    by slide in order: the text of each shape that has the attribute [text],
    each followed by a line feed, and one more line feed after the slide.
    Shapes without the attribute contribute nothing, and their [text] is
    never read (it may raise without effect). *)
Theorem pptx_slides_text
  (L : Libs) (fs : FS) (file_path : str) (pres : pptx.Presentation)
  (rendered : list (list str)) :
  Presentation L fs file_path = Return pres ->
  Forall2 slide_texts (pptx.slides pres) rendered ->
  process_file L fs file_path (lit ".pptx")
  = Return (Text (concat (map (fun ts => concat (map (fun t => t ++ nl) ts) ++ nl)
                            rendered))).
Proof.
  intros Hp Hslides. unfold process_file. apply process_file_with_return.
  rewrite dispatch_pptx. cbn [defined call_pptx].
  unfold extract_from_pptx, pptx_body. rewrite Hp. cbn [mbind result_bind].
  match goal with
  | |- context [for_each ?xs ?acc ?body] =>
      assert (Hloop : for_each xs acc body
                      = Return (concat (map (fun ts => concat (map (fun t => t ++ nl) ts)
                                                       ++ nl) rendered)))
  end.
  { refine (for_each_pieces _
              (fun ts => concat (map (fun t => t ++ nl) ts) ++ nl)
              slide_texts _ _ _ [] Hslides).
    intros acc slide ts Hts.
    rewrite (pptx_shapes_loop (pptx.shapes slide) ts acc Hts).
    cbn [mbind result_bind mret result_ret]. now rewrite <- app_assoc. }
  now rewrite Hloop.
Qed.

Lemma pptx_slides_text_witness :
  process_file Sample.libs Sample.disk Sample.path (lit ".pptx")
  = Return (Text (concat (map (fun ts => concat (map (fun t => t ++ nl) ts) ++ nl)
                            [[lit "title"]]))).
Proof.
  eapply (pptx_slides_text Sample.libs Sample.disk Sample.path).
  - vm_compute. reflexivity.
  - repeat constructor.
Defined.

(** ** A workbook with a sheet that does not render *)

(** X8. Extraction of a workbook is all or nothing: when a sheet fails to
    render after sheets that rendered, the labels and tables of the earlier
    sheets are discarded and the result is the text
    "Error extracting text from Excel: " followed by the message. *)
Theorem excel_failing_sheet_discards_text
  (L : Libs) (fs : FS) (file_path file_ext : str)
  (pre : list (str * pd.DataFrame)) (name : str) (df : pd.DataFrame)
  (post : list (str * pd.DataFrame)) (rendered : list (str * str)) (e : exc) :
  file_ext ∈ [lit ".xls"; lit ".xlsx"] ->
  read_excel L fs file_path = Return (pre ++ (name, df) :: post) ->
  Forall2 (fun sh nt => sh.1 = nt.1 /\ pd.to_string sh.2 = Return nt.2)
    pre rendered ->
  pd.to_string df = Raise e ->
  process_file L fs file_path file_ext
  = Return (Text (lit "Error extracting text from Excel: " ++ exc_str e)).
Proof.
  intros Hext Hr Hpre Hdf.
  unfold process_file. apply process_file_with_return.
  assert (Hd : dispatch (defined L fs) file_path file_ext
               = extract_from_excel L fs file_path).
  { rewrite !elem_of_cons, elem_of_nil in Hext.
    destruct Hext as [-> | [-> | []]]; reflexivity. }
  rewrite Hd. unfold extract_from_excel, excel_body.
  rewrite Hr. cbn [mbind result_bind].
  match goal with
  | |- context [for_each ?xs ?acc ?body] =>
      assert (Hloop : for_each xs acc body = Raise e)
  end.
  { refine (for_each_raises _
              (fun nt : str * str => (lit "Sheet: " ++ nt.1 ++ nl)
                                     ++ (nt.2 ++ nl ++ nl))
              (fun sh nt => sh.1 = nt.1 /\ pd.to_string sh.2 = Return nt.2)
              pre (name, df) post rendered [] e _ Hpre _).
    - intros acc [n d] [n' t] [Hn Ht]. cbn [fst snd] in *. subst n'.
      rewrite Ht. cbn [mbind result_bind mret result_ret].
      now rewrite <- app_assoc.
    - intros acc. now rewrite Hdf. }
  now rewrite Hloop.
Qed.

Lemma excel_failing_sheet_discards_text_witness :
  process_file Faulty.libs Sample.disk Sample.path (lit ".xls")
  = Return (Text (lit "Error extracting text from Excel: "
                  ++ lit "cannot render")).
Proof.
  refine (excel_failing_sheet_discards_text Faulty.libs Sample.disk Sample.path
            (lit ".xls") [(lit "Sheet1", Sample.frame "   a")]
            (lit "Broken") Faulty.bad_frame []
            [(lit "Sheet1", lit "   a")]
            (Exception (lit "cannot render")) _ eq_refl _ eq_refl).
  - apply list_elem_of_here.
  - repeat constructor.
Defined.

(** ** A path that cannot be opened *)

(** X9. When the path names no file, the four handlers that open the file
    themselves (PDF, DOC, TXT, HTML) report it as text: the result is
    "Error extracting text from <FORMAT>: " followed by the message of the
    error that [open] raised, and the library is not called. *)
Theorem missing_file_is_text
  (L : Libs) (fs : FS) (file_path file_ext : str) (f : format) :
  fs !! file_path = None ->
  (file_ext, f) ∈ [(lit ".pdf", PDF); (lit ".doc", DOC); (lit ".txt", TXT);
                   (lit ".html", HTML); (lit ".htm", HTML)] ->
  process_file L fs file_path file_ext
  = Return (Text (lit "Error extracting text from " ++ format_label f
                  ++ lit ": " ++ open_error L file_path)).
Proof.
  intros Hno Hin.
  assert (Hin' : (file_ext, f) ∈ format_of_ext).
  { unfold format_of_ext. rewrite !elem_of_cons, elem_of_nil in Hin.
    rewrite !elem_of_cons. tauto. }
  rewrite (process_file_handled L fs file_path file_ext f Hin').
  assert (Hp : parsing L fs f file_path
               = Raise (Exception (open_error L file_path))).
  { rewrite !elem_of_cons, elem_of_nil in Hin.
    destruct Hin as [H | [H | [H | [H | [H | []]]]]]; injection H as -> ->;
      unfold parsing, pdf_body, doc_body, txt_body, html_body,
        open_read_text, open_rb; now rewrite Hno. }
  rewrite Hp. reflexivity.
Qed.

Lemma missing_file_is_text_witness :
  process_file Sample.libs ∅ Sample.path (lit ".html")
  = Return (Text (lit "Error extracting text from " ++ format_label HTML
                  ++ lit ": " ++ open_error Sample.libs Sample.path)).
Proof.
  apply (missing_file_is_text Sample.libs ∅ Sample.path (lit ".html") HTML).
  - apply lookup_empty.
  - do 3 apply list_elem_of_further. apply list_elem_of_here.
Defined.


(** ** More on the decoded text *)

(** Every step of the decoder writes one scalar and resumes at a strict
    suffix of its input. *)
Lemma decode_consumes (bs : list N) :
  Forall (fun b => b < 256) bs -> bs <> [] ->
  exists c k, is_scalar c
              /\ utf8_decode_replace bs
                 = c :: utf8_decode_replace (drop (S k) bs).
Proof.
  intros Hb Hne. destruct bs as [| ch s1]; [congruence |]. clear Hne.
  apply Forall_cons in Hb as [Hch Hb].
  assert (Hrepl : is_scalar REPLACEMENT) by (unfold is_scalar, REPLACEMENT; lia).
  cbn [utf8_decode_replace].
  destruct (N.ltb_spec ch 0x80).
  { exists ch, 0%nat. split; [unfold is_scalar; lia | reflexivity]. }
  destruct (N.ltb_spec ch 0xE0).
  { destruct (N.ltb_spec ch 0xC2); [exists REPLACEMENT, 0%nat; auto |].
    destruct s1 as [| ch2 s2]; [exists REPLACEMENT, 0%nat; auto |].
    apply Forall_cons in Hb as [Hch2 Hb].
    rewrite (is_continuation_byte_range ch2 Hch2).
    destruct (N.leb_spec 0x80 ch2); [| exists REPLACEMENT, 0%nat; auto].
    destruct (N.ltb_spec ch2 0xC0); [| exists REPLACEMENT, 0%nat; auto].
    exists (decode2 ch ch2), 1%nat. split; [| reflexivity].
    rewrite decode2_value. unfold is_scalar. lia. }
  destruct (N.ltb_spec ch 0xF0).
  { destruct s1 as [| ch2 s2]; [exists REPLACEMENT, 0%nat; auto |].
    apply Forall_cons in Hb as [Hch2 Hb].
    rewrite (is_continuation_byte_range ch2 Hch2). unfold bad_second_of_3.
    destruct (N.leb_spec 0x80 ch2); [| exists REPLACEMENT, 0%nat; auto].
    destruct (N.ltb_spec ch2 0xC0); [| exists REPLACEMENT, 0%nat; auto].
    cbn [negb andb orb].
    destruct (N.ltb_spec ch2 0xA0);
      [destruct (N.eqb_spec ch 0xE0) | destruct (N.eqb_spec ch 0xED)];
      try (exists REPLACEMENT, 0%nat; auto; fail).
    all: destruct s2 as [| ch3 s3]; [exists REPLACEMENT, 1%nat; auto |].
    all: apply Forall_cons in Hb as [Hch3 Hb].
    all: rewrite (is_continuation_byte_range ch3 Hch3).
    all: destruct (N.leb_spec 0x80 ch3); [| exists REPLACEMENT, 1%nat; auto].
    all: destruct (N.ltb_spec ch3 0xC0); [| exists REPLACEMENT, 1%nat; auto].
    all: exists (decode3 ch ch2 ch3), 2%nat; split; [| reflexivity].
    all: rewrite decode3_value; unfold is_scalar; lia. }
  destruct (N.ltb_spec ch 0xF5); [| exists REPLACEMENT, 0%nat; auto].
  destruct s1 as [| ch2 s2]; [exists REPLACEMENT, 0%nat; auto |].
  apply Forall_cons in Hb as [Hch2 Hb].
  rewrite (is_continuation_byte_range ch2 Hch2). unfold bad_second_of_4.
  destruct (N.leb_spec 0x80 ch2); [| exists REPLACEMENT, 0%nat; auto].
  destruct (N.ltb_spec ch2 0xC0); [| exists REPLACEMENT, 0%nat; auto].
  cbn [negb andb orb].
  destruct (N.ltb_spec ch2 0x90);
    [destruct (N.eqb_spec ch 0xF0) | destruct (N.eqb_spec ch 0xF4)];
    try (exists REPLACEMENT, 0%nat; auto; fail).
  all: destruct s2 as [| ch3 s3]; [exists REPLACEMENT, 1%nat; auto |].
  all: apply Forall_cons in Hb as [Hch3 Hb].
  all: rewrite (is_continuation_byte_range ch3 Hch3).
  all: destruct (N.leb_spec 0x80 ch3); [| exists REPLACEMENT, 1%nat; auto].
  all: destruct (N.ltb_spec ch3 0xC0); [| exists REPLACEMENT, 1%nat; auto].
  all: cbn [negb andb].
  all: destruct s3 as [| ch4 s4]; [exists REPLACEMENT, 2%nat; auto |].
  all: apply Forall_cons in Hb as [Hch4 Hb].
  all: rewrite (is_continuation_byte_range ch4 Hch4).
  all: destruct (N.leb_spec 0x80 ch4); [| exists REPLACEMENT, 2%nat; auto].
  all: destruct (N.ltb_spec ch4 0xC0); [| exists REPLACEMENT, 2%nat; auto].
  all: exists (decode4 ch ch2 ch3 ch4), 3%nat; split; [| reflexivity].
  all: rewrite decode4_value; unfold is_scalar; lia.
Qed.

(** The decoded text has only scalars and is no longer than the input. *)
Lemma decode_scalars_and_length (n : nat) :
  forall bs : list N,
    (length bs <= n)%nat ->
    Forall (fun b => b < 256) bs ->
    Forall is_scalar (utf8_decode_replace bs)
    /\ (length (utf8_decode_replace bs) <= length bs)%nat.
Proof.
  induction n as [| n IH]; intros bs Hlen Hb.
  - destruct bs; [split; [constructor | reflexivity] | cbn in Hlen; lia].
  - destruct bs as [| ch s1]; [split; [constructor | reflexivity] |].
    destruct (decode_consumes (ch :: s1) Hb ltac:(discriminate))
      as (c & k & Hc & E).
    rewrite E. cbn [drop] in *. cbn [length] in Hlen.
    pose proof (length_drop s1 k) as Hk.
    apply Forall_cons in Hb as [_ Hb1].
    destruct (IH (drop k s1) ltac:(lia) (Forall_drop _ k _ Hb1)) as [Hs Hl].
    split; [now constructor | cbn [length]; lia].
Qed.

(** What the newline translation writes: a line feed, or a character of the
    input that is not a carriage return. *)
Lemma universal_newlines_elements (n : nat) :
  forall s : list N,
    (length s <= n)%nat ->
    (length (universal_newlines s) <= length s)%nat
    /\ forall c, c ∈ universal_newlines s -> c = LF \/ (c ∈ s /\ c <> CR).
Proof.
  induction n as [| n IH]; intros s Hlen.
  - destruct s; [| cbn in Hlen; lia]. split; [reflexivity |].
    intros c Hc. cbn in Hc. now apply elem_of_nil in Hc.
  - destruct s as [| x s1].
    { split; [reflexivity |]. intros c Hc. cbn in Hc. now apply elem_of_nil in Hc. }
    cbn [length] in Hlen. cbn [universal_newlines].
    destruct (N.eqb_spec x CR) as [-> | Hx].
    + destruct s1 as [| c2 s2].
      { split; [reflexivity |]. intros c Hc.
        apply list_elem_of_singleton in Hc. now left. }
      cbn [length] in Hlen.
      destruct (N.eqb_spec c2 LF) as [-> | Hc2].
      * destruct (IH s2 ltac:(lia)) as [Hl He]. split; [cbn [length]; lia |].
        intros c Hc. apply elem_of_cons in Hc as [-> | Hc]; [now left |].
        destruct (He c Hc) as [-> | [Hin Hne]]; [now left |].
        right. split; [| exact Hne]. now do 2 apply list_elem_of_further.
      * destruct (IH (c2 :: s2) ltac:(cbn [length]; lia)) as [Hl He].
        split; [cbn [length] in *; lia |].
        intros c Hc. apply elem_of_cons in Hc as [-> | Hc]; [now left |].
        destruct (He c Hc) as [-> | [Hin Hne]]; [now left |].
        right. split; [| exact Hne]. now apply list_elem_of_further.
    + destruct (IH s1 ltac:(lia)) as [Hl He]. split; [cbn [length]; lia |].
      intros c Hc. apply elem_of_cons in Hc as [-> | Hc].
      * right. split; [apply list_elem_of_here | exact Hx].
      * destruct (He c Hc) as [-> | [Hin Hne]]; [now left |].
        right. split; [| exact Hne]. now apply list_elem_of_further.
Qed.

Lemma bytes_below_256 (b : bytes) : Forall (fun x => x < 256) (map Byte.to_N b).
Proof.
  apply Forall_map, Forall_forall. intros x _. cbn.
  pose proof (Byte.to_N_bounded x). lia.
Qed.

(** The handler of [.txt] through [process_file], on a file that exists. *)
Lemma process_file_txt_file (L : Libs) (fs : FS) (file_path : str) (b : bytes) :
  fs !! file_path = Some b ->
  process_file L fs file_path (lit ".txt") = Return (Text (read_text b)).
Proof.
  intros Hb. unfold process_file. apply process_file_with_return.
  rewrite dispatch_txt. cbn [defined call_txt].
  now apply extract_from_txt_file.
Qed.



(** X11. The text extracted from a [.txt] file is a well-formed Unicode
    string whatever the bytes are: every character is a scalar value (at
    most U+10FFFF and not a surrogate). *)
Theorem txt_text_is_scalars
  (L : Libs) (fs : FS) (file_path : str) (b : bytes) :
  fs !! file_path = Some b ->
  exists t, process_file L fs file_path (lit ".txt") = Return (Text t)
            /\ Forall is_scalar t.
Proof.
  intros Hb. exists (read_text b). split; [now apply process_file_txt_file |].
  unfold read_text. apply Forall_forall. intros c Hc.
  destruct (universal_newlines_elements _
              (utf8_decode_replace (map Byte.to_N b)) (le_n _)) as [_ He].
  destruct (He c Hc) as [-> | [Hin _]]; [unfold is_scalar, LF; lia |].
  destruct (decode_scalars_and_length _ _ (le_n _) (bytes_below_256 b)) as [Hs _].
  rewrite Forall_forall in Hs. now apply Hs.
Qed.

Lemma txt_text_is_scalars_witness :
  exists t,
    process_file Sample.libs {[ Sample.path := [xed; xa0; x80; xf5] ]}
      Sample.path (lit ".txt") = Return (Text t)
    /\ Forall is_scalar t.
Proof.
  exact (txt_text_is_scalars Sample.libs
           {[ Sample.path := [xed; xa0; x80; xf5] ]} Sample.path
           [xed; xa0; x80; xf5] (lookup_singleton_eq _ _)).
Defined.

(** X12. The text extracted from a [.txt] file has at most as many
    characters as the file has bytes. *)
Theorem txt_text_length
  (L : Libs) (fs : FS) (file_path : str) (b : bytes) :
  fs !! file_path = Some b ->
  exists t, process_file L fs file_path (lit ".txt") = Return (Text t)
            /\ (length t <= length b)%nat.
Proof.
  intros Hb. exists (read_text b). split; [now apply process_file_txt_file |].
  unfold read_text.
  destruct (universal_newlines_elements _
              (utf8_decode_replace (map Byte.to_N b)) (le_n _)) as [Hl _].
  destruct (decode_scalars_and_length _ _ (le_n _) (bytes_below_256 b)) as [_ Hd].
  rewrite length_map in Hd. lia.
Qed.

Lemma txt_text_length_witness :
  exists t,
    process_file Sample.libs {[ Sample.path := [xe2; x82; xac; x0d; x0a] ]}
      Sample.path (lit ".txt") = Return (Text t)
    /\ (length t <= length [xe2; x82; xac; x0d; x0a])%nat.
Proof.
  exact (txt_text_length Sample.libs
           {[ Sample.path := [xe2; x82; xac; x0d; x0a] ]} Sample.path
           [xe2; x82; xac; x0d; x0a] (lookup_singleton_eq _ _)).
Defined.

Lemma decode_ascii (bs : list N) :
  Forall (fun x => x < 0x80) bs -> utf8_decode_replace bs = bs.
Proof.
  induction 1 as [| x bs Hx _ IH]; [reflexivity |].
  cbn [utf8_decode_replace]. destruct (N.ltb_spec x 0x80); [| lia].
  now rewrite IH.
Qed.

Lemma universal_newlines_without_cr (s : str) :
  CR ∉ s -> universal_newlines s = s.
Proof.
  induction s as [| c s IH]; [reflexivity |]. intros H.
  apply not_elem_of_cons in H as [Hc Hs]. cbn [universal_newlines].
  destruct (N.eqb_spec c CR); [congruence |]. now rewrite IH.
Qed.

(** X13. A [.txt] file of ASCII bytes without a carriage return is returned
    as it is: the text is the bytes, one character per byte. *)
Theorem txt_ascii_verbatim
  (L : Libs) (fs : FS) (file_path : str) (b : bytes) :
  fs !! file_path = Some b ->
  Forall (fun x => Byte.to_N x < 0x80 /\ Byte.to_N x <> CR) b ->
  process_file L fs file_path (lit ".txt")
  = Return (Text (map Byte.to_N b)).
Proof.
  intros Hb Hascii. rewrite (process_file_txt_file L fs file_path b Hb).
  unfold read_text. rewrite decode_ascii.
  - rewrite universal_newlines_without_cr; [reflexivity |].
    intros Hin. apply list_elem_of_fmap in Hin as (x & Hx & Hin).
    rewrite Forall_forall in Hascii. destruct (Hascii x Hin) as [_ Hne].
    congruence.
  - apply Forall_map. eapply Forall_impl; [exact Hascii |].
    intros x [Hx _]. exact Hx.
Qed.

Lemma txt_ascii_verbatim_witness :
  process_file Sample.libs {[ Sample.path := [x68; x69; x0a] ]} Sample.path
    (lit ".txt")
  = Return (Text (map Byte.to_N [x68; x69; x0a])).
Proof.
  apply (txt_ascii_verbatim Sample.libs {[ Sample.path := [x68; x69; x0a] ]}
           Sample.path [x68; x69; x0a] (lookup_singleton_eq _ _)).
  repeat constructor; vm_compute; congruence.
Defined.


(** ** The split of a file name *)

Lemma elem_of_drop_elem {A} (x : A) (n : nat) (l : list A) :
  x ∈ drop n l -> x ∈ l.
Proof.
  intros H. rewrite <- (take_drop n l). apply elem_of_app. now right.
Qed.

(** What [rfind] finds: nothing when the character is absent, else the
    position of its last occurrence. *)
Lemma rfind_from_spec (c : N) (p : str) :
  forall (i last : Z),
    (rfind_from c p i last = last /\ (c ∉ p))
    \/ (exists j : nat, rfind_from c p i last = (i + Z.of_nat j)%Z
                        /\ p !! j = Some c /\ (c ∉ drop (S j) p)).
Proof.
  induction p as [| x p IH]; intros i last; cbn [rfind_from].
  - left. split; [reflexivity | apply not_elem_of_nil].
  - destruct (N.eqb_spec x c) as [-> | Hx].
    + destruct (IH (i + 1)%Z i) as [[E Hno] | (j & E & Hj & Hno)].
      * right. exists 0%nat. rewrite E. split; [lia |]. split; [reflexivity |].
        exact Hno.
      * right. exists (S j). rewrite E. split; [lia |]. split; assumption.
    + destruct (IH (i + 1)%Z last) as [[E Hno] | (j & E & Hj & Hno)].
      * left. split; [exact E |]. apply not_elem_of_cons. split; congruence.
      * right. exists (S j). rewrite E. split; [lia |]. split; assumption.
Qed.

Lemma rfind_spec (c : N) (p : str) :
  (rfind c p = (-1)%Z /\ (c ∉ p))
  \/ (exists j : nat, rfind c p = Z.of_nat j
                      /\ p !! j = Some c /\ (c ∉ drop (S j) p)).
Proof.
  unfold rfind. destruct (rfind_from_spec c p 0 (-1)) as [H | (j & E & H)].
  - now left.
  - right. exists j. rewrite E. split; [lia | exact H].
Qed.

(** The two parts of a split name. *)
Lemma splitext_shape (p : str) :
  (splitext p).1 ++ (splitext p).2 = p
  /\ ((splitext p).2 = []
      \/ exists e, (splitext p).2 = extsep :: e /\ (extsep ∉ e) /\ (sep ∉ e)).
Proof.
  unfold splitext.
  destruct (Z.ltb_spec (rfind sep p) (rfind extsep p)) as [Hlt | Hge];
    cbn [andb]; [| split; [apply app_nil_r | now left]].
  destruct (has_non_dot p (rfind sep p + 1)
              (Z.to_nat (rfind extsep p - (rfind sep p + 1))));
    [| split; [apply app_nil_r | now left]].
  cbn [fst snd]. unfold slice_to, slice_from.
  split; [apply take_drop |]. right.
  destruct (rfind_spec extsep p) as [[E _] | (j & E & Hj & Hno)].
  { destruct (rfind_spec sep p) as [[E' _] | (j' & E' & _)]; lia. }
  rewrite E, Nat2Z.id. exists (drop (S j) p).
  split; [now apply drop_S |]. split; [exact Hno |].
  destruct (rfind_spec sep p) as [[_ Hs] | (j' & E' & _ & Hs)].
  - intros Hin. apply Hs. eapply elem_of_drop_elem; exact Hin.
  - intros Hin. apply Hs.
    replace (S j) with (S j' + (S j - S j'))%nat in Hin by lia.
    rewrite <- drop_drop in Hin. eapply elem_of_drop_elem; exact Hin.
Qed.

(** X14. [splitext] loses nothing and cuts at a dot: the two parts put
    together are the name, and the extension is empty or starts with a dot
    and contains no other dot and no slash. *)
Theorem splitext_parts (p : str) :
  (splitext p).1 ++ (splitext p).2 = p
  /\ ((splitext p).2 = []
      \/ exists e, (splitext p).2 = extsep :: e /\ (extsep ∉ e) /\ (sep ∉ e)).
Proof. exact (splitext_shape p). Qed.

(** ** The chat endpoint *)

(** X15. Only the first 100000 characters of the document reach the
    completion service: two requests with the same question whose documents
    agree on their first 100000 characters get the same result. *)
Theorem chat_ignores_document_tail
  (create : str -> list dict -> result openai.ChatCompletion)
  (request1 request2 : ChatRequest) :
  take document_limit (documentText request1)
  = take document_limit (documentText request2) ->
  userMessage request1 = userMessage request2 ->
  chat_with_document create request1 = chat_with_document create request2.
Proof.
  intros Hdoc Hmsg. unfold chat_with_document, chat_messages, user_content.
  now rewrite Hdoc, Hmsg.
Qed.

Lemma chat_ignores_document_tail_witness :
  chat_with_document (fun _ _ => Raise (Exception (lit "offline")))
    {| documentText := replicate document_limit 65 ++ [66];
       userMessage := lit "why" |}
  = chat_with_document (fun _ _ => Raise (Exception (lit "offline")))
      {| documentText := replicate document_limit 65 ++ [67];
         userMessage := lit "why" |}.
Proof.
  apply chat_ignores_document_tail; [| reflexivity].
  cbn [documentText].
  rewrite !take_app_length' by (symmetry; apply length_replicate). reflexivity.
Defined.

(** X16. The user message is bounded by the document limit: its length is
    the smaller of the document's length and 100000, plus the 27 characters
    of the two captions, plus the length of the question, which is never
    cut. *)
Theorem chat_user_content_length (request : ChatRequest) :
  length (user_content request)
  = (Nat.min document_limit (length (documentText request)) + 27
     + length (userMessage request))%nat.
Proof.
  unfold user_content. rewrite !length_app, length_take.
  change (length (lit "Document:")) with 9%nat.
  change (length (lit "User Question:")) with 14%nat.
  change (length nl) with 1%nat. lia.
Qed.

(** X17. The chat endpoint never raises: it returns either the dictionary
    with the key "answer" or the one with the key "error". The answer is
    returned exactly when the call succeeds, the response has its list of
    choices, the list is not empty and the content of its first choice can
    be read. *)
Theorem chat_answer_or_error
  (create : str -> list dict -> result openai.ChatCompletion)
  (request : ChatRequest) :
  ((exists a, chat_with_document create request
              = Return {[ lit "answer" := a ]})
   \/ (exists m, chat_with_document create request
                 = Return {[ lit "error" := m ]}))
  /\ forall a,
       chat_with_document create request = Return {[ lit "answer" := a ]}
       <-> exists response choices,
             create (lit "gpt-3.5-turbo") (chat_messages request)
             = Return response
             /\ openai.choices response = Return choices
             /\ choices !! 0%nat = Some (Return a).
Proof.
  assert (Hne : forall a m : str,
             ({[ lit "answer" := a ]} : dict) <> {[ lit "error" := m ]}).
  { intros a m H. apply (f_equal (fun d : dict => d !! lit "answer")) in H.
    rewrite lookup_singleton_eq in H.
    rewrite lookup_singleton_ne in H by discriminate. discriminate. }
  assert (Hinj : forall a a' : str,
             ({[ lit "answer" := a ]} : dict) = {[ lit "answer" := a' ]} -> a = a').
  { intros a a' H. apply (f_equal (fun d : dict => d !! lit "answer")) in H.
    rewrite !lookup_singleton_eq in H. congruence. }
  unfold chat_with_document.
  destruct (create (lit "gpt-3.5-turbo") (chat_messages request))
    as [response | e]; cbn [mbind result_bind try_except mret result_ret].
  2: { split; [right; eauto |]. intros a. split.
       - intros H. apply Return_inj in H. symmetry in H. now apply Hne in H.
       - intros (r & cs & H & _). discriminate H. }
  destruct (openai.choices response) as [choices | e] eqn:Hc;
    cbn [mbind result_bind try_except mret result_ret].
  2: { split; [right; eauto |]. intros a. split.
       - intros H. apply Return_inj in H. symmetry in H. now apply Hne in H.
       - intros (r & cs & [= <-] & H & _). rewrite Hc in H. discriminate H. }
  unfold getitem. destruct (choices !! 0%nat) as [[a0 | e] |] eqn:H0;
    cbn [mbind result_bind try_except mret result_ret].
  - split; [left; eauto |]. intros a. split.
    + intros H. apply Return_inj, Hinj in H. subst a0. eauto.
    + intros (r & cs & [= <-] & H & H'). rewrite Hc in H.
      injection H as <-. rewrite H0 in H'. now injection H' as ->.
  - split; [right; eauto |]. intros a. split.
    + intros H. apply Return_inj in H. symmetry in H. now apply Hne in H.
    + intros (r & cs & [= <-] & H & H'). rewrite Hc in H.
      injection H as <-. rewrite H0 in H'. discriminate H'.
  - split; [right; eauto |]. intros a. split.
    + intros H. apply Return_inj in H. symmetry in H. now apply Hne in H.
    + intros (r & cs & [= <-] & H & H'). rewrite Hc in H.
      injection H as <-. rewrite H0 in H'. discriminate H'.
Qed.


(** ** The decoder against the relation *)

(** The four shapes of an encoded scalar. *)
Lemma utf8_encode_char_shape (c : N) :
  is_scalar c ->
  (exists a, utf8_encode_char c = [a] /\ a < 0x80)
  \/ (exists a b, utf8_encode_char c = [a; b]
                  /\ 0xC2 <= a < 0xE0 /\ 0x80 <= b < 0xC0)
  \/ (exists a b d, utf8_encode_char c = [a; b; d]
                    /\ 0xE0 <= a < 0xF0 /\ 0x80 <= b < 0xC0 /\ 0x80 <= d < 0xC0
                    /\ (a = 0xE0 -> 0xA0 <= b) /\ (a = 0xED -> b < 0xA0))
  \/ (exists a b d e, utf8_encode_char c = [a; b; d; e]
                      /\ 0xF0 <= a < 0xF5 /\ 0x80 <= b < 0xC0
                      /\ 0x80 <= d < 0xC0 /\ 0x80 <= e < 0xC0
                      /\ (a = 0xF0 -> 0x90 <= b) /\ (a = 0xF4 -> b < 0x90)).
Proof.
  unfold is_scalar, utf8_encode_char. intros H.
  destruct (N.ltb_spec c 0x80); [left; eexists; split; [reflexivity | lia] |].
  destruct (N.ltb_spec c 0x800);
    [right; left; do 2 eexists; split; [reflexivity | lia] |].
  destruct (N.ltb_spec c 0x10000);
    [right; right; left; do 3 eexists; split; [reflexivity | lia] |].
  right; right; right. do 4 eexists. split; [reflexivity | lia].
Qed.

(** Conversely, bytes of these shapes are the encoding of a scalar. *)
Lemma well_formed_2 (a b : N) :
  0xC2 <= a < 0xE0 -> 0x80 <= b < 0xC0 ->
  is_scalar (decode2 a b) /\ utf8_encode_char (decode2 a b) = [a; b].
Proof.
  intros. rewrite decode2_value. unfold is_scalar, utf8_encode_char.
  split; [lia |]. ltb_cases. repeat f_equal; lia.
Qed.

Lemma well_formed_3 (a b d : N) :
  0xE0 <= a < 0xF0 -> 0x80 <= b < 0xC0 -> 0x80 <= d < 0xC0 ->
  (a = 0xE0 -> 0xA0 <= b) -> (a = 0xED -> b < 0xA0) ->
  is_scalar (decode3 a b d) /\ utf8_encode_char (decode3 a b d) = [a; b; d].
Proof.
  intros. rewrite decode3_value. unfold is_scalar, utf8_encode_char.
  split; [lia |]. ltb_cases. repeat f_equal; lia.
Qed.

Lemma well_formed_4 (a b d e : N) :
  0xF0 <= a < 0xF5 -> 0x80 <= b < 0xC0 -> 0x80 <= d < 0xC0 -> 0x80 <= e < 0xC0 ->
  (a = 0xF0 -> 0x90 <= b) -> (a = 0xF4 -> b < 0x90) ->
  is_scalar (decode4 a b d e)
  /\ utf8_encode_char (decode4 a b d e) = [a; b; d; e].
Proof.
  intros. rewrite decode4_value. unfold is_scalar, utf8_encode_char.
  split; [lia |]. ltb_cases. repeat f_equal; lia.
Qed.


(** Refute that an encoded scalar has the bytes at hand: compare them with
    the four shapes. *)
Ltac against_shapes c Hc E :=
  destruct (utf8_encode_char_shape c Hc)
    as [(?a & Ea & ?)
       | [(?a & ?b & Ea & ? & ?)
         | [(?a & ?b & ?d & Ea & ? & ? & ? & ? & ?)
           | (?a & ?b & ?d & ?e & Ea & ? & ? & ? & ? & ? & ?)]]];
  rewrite Ea in E; cbn [app] in E; simplify_eq; lia.

Ltac not_begins :=
  let c := fresh "c" in let tail := fresh "tail" in
  let Hc := fresh "Hc" in let E := fresh "E" in
  intros (c & tail & Hc & E); against_shapes c Hc E.

Ltac not_starts :=
  let c := fresh "c" in let rest := fresh "rest" in
  let Hc := fresh "Hc" in let E := fresh "E" in
  intros (c & rest & Hc & E); against_shapes c Hc E.

Lemma begins_scalar_1 (a : N) : 0xC2 <= a < 0xF5 -> begins_scalar [a].
Proof.
  intros H. destruct (N.ltb_spec a 0xE0); [| destruct (N.ltb_spec a 0xF0)].
  - exists (decode2 a 0x80), [0x80]. apply well_formed_2; lia.
  - destruct (N.eqb_spec a 0xE0).
    + exists (decode3 a 0xA0 0x80), [0xA0; 0x80]. apply well_formed_3; lia.
    + exists (decode3 a 0x80 0x80), [0x80; 0x80]. apply well_formed_3; lia.
  - destruct (N.eqb_spec a 0xF0).
    + exists (decode4 a 0x90 0x80 0x80), [0x90; 0x80; 0x80].
      apply well_formed_4; lia.
    + exists (decode4 a 0x80 0x80 0x80), [0x80; 0x80; 0x80].
      apply well_formed_4; lia.
Qed.

Lemma begins_scalar_2_of_3 (a b : N) :
  0xE0 <= a < 0xF0 -> 0x80 <= b < 0xC0 ->
  (a = 0xE0 -> 0xA0 <= b) -> (a = 0xED -> b < 0xA0) ->
  begins_scalar [a; b].
Proof.
  intros. exists (decode3 a b 0x80), [0x80]. apply well_formed_3; lia.
Qed.

Lemma begins_scalar_2_of_4 (a b : N) :
  0xF0 <= a < 0xF5 -> 0x80 <= b < 0xC0 ->
  (a = 0xF0 -> 0x90 <= b) -> (a = 0xF4 -> b < 0x90) ->
  begins_scalar [a; b].
Proof.
  intros. exists (decode4 a b 0x80 0x80), [0x80; 0x80].
  apply well_formed_4; lia.
Qed.

Lemma begins_scalar_3_of_4 (a b d : N) :
  0xF0 <= a < 0xF5 -> 0x80 <= b < 0xC0 -> 0x80 <= d < 0xC0 ->
  (a = 0xF0 -> 0x90 <= b) -> (a = 0xF4 -> b < 0x90) ->
  begins_scalar [a; b; d].
Proof.
  intros. exists (decode4 a b d 0x80), [0x80]. apply well_formed_4; lia.
Qed.

(** The ill-formed head [bad], followed by [rest]: close the four parts of
    [ill_formed_head] and the equation of the decoder. *)
Ltac marker_step bad rest begins :=
  right; exists bad, rest; split; [reflexivity |]; split; [| reflexivity];
  split; [discriminate |]; split; [not_starts |];
  split; [begins |];
  let x := fresh "x" in let rest' := fresh "rest'" in
  let H := fresh "H" in
  intros x rest' H; simplify_eq; not_begins.

(** One step of the decoder, against the relation: it reads the encoding of
    a scalar, or it writes the marker for the ill-formed head of its input;
    either way it resumes after what it read. *)
Lemma decode_step_lenient (bs : list N) :
  Forall (fun b => b < 256) bs -> bs <> [] ->
  (exists c rest, is_scalar c /\ bs = utf8_encode_char c ++ rest
                  /\ utf8_decode_replace bs = c :: utf8_decode_replace rest)
  \/ (exists bad rest, bs = bad ++ rest /\ ill_formed_head bad rest
                       /\ utf8_decode_replace bs
                          = REPLACEMENT :: utf8_decode_replace rest).
Proof.
  intros Hb Hne. destruct bs as [| ch s1]; [congruence |]. clear Hne.
  apply Forall_cons in Hb as [Hch Hb].
  cbn [utf8_decode_replace].
  destruct (N.ltb_spec ch 0x80).
  { left. exists ch, s1. unfold is_scalar, utf8_encode_char.
    split; [lia |]. split; [| reflexivity]. ltb_cases. reflexivity. }
  destruct (N.ltb_spec ch 0xE0).
  { destruct (N.ltb_spec ch 0xC2);
      [marker_step [ch] s1 ltac:(right; reflexivity) |].
    destruct s1 as [| ch2 s2];
      [marker_step [ch] (@nil N) ltac:(left; apply begins_scalar_1; lia) |].
    apply Forall_cons in Hb as [Hch2 Hb].
    rewrite (is_continuation_byte_range ch2 Hch2).
    destruct (N.leb_spec 0x80 ch2);
      [| marker_step [ch] (ch2 :: s2) ltac:(left; apply begins_scalar_1; lia)].
    destruct (N.ltb_spec ch2 0xC0);
      [| marker_step [ch] (ch2 :: s2) ltac:(left; apply begins_scalar_1; lia)].
    cbn [negb andb]. left. exists (decode2 ch ch2), s2.
    destruct (well_formed_2 ch ch2) as [Hs He]; [lia | lia |].
    split; [exact Hs |]. split; [now rewrite He | reflexivity]. }
  destruct (N.ltb_spec ch 0xF0).
  { destruct s1 as [| ch2 s2];
      [marker_step [ch] (@nil N) ltac:(left; apply begins_scalar_1; lia) |].
    apply Forall_cons in Hb as [Hch2 Hb].
    rewrite (is_continuation_byte_range ch2 Hch2). unfold bad_second_of_3.
    destruct (N.leb_spec 0x80 ch2);
      [| marker_step [ch] (ch2 :: s2) ltac:(left; apply begins_scalar_1; lia)].
    destruct (N.ltb_spec ch2 0xC0);
      [| marker_step [ch] (ch2 :: s2) ltac:(left; apply begins_scalar_1; lia)].
    cbn [negb andb orb].
    destruct (N.ltb_spec ch2 0xA0);
      [destruct (N.eqb_spec ch 0xE0) | destruct (N.eqb_spec ch 0xED)];
      try (marker_step [ch] (ch2 :: s2)
             ltac:(left; apply begins_scalar_1; lia); fail).
    all: destruct s2 as [| ch3 s3];
      [marker_step [ch; ch2] (@nil N)
         ltac:(left; apply begins_scalar_2_of_3; lia) |].
    all: apply Forall_cons in Hb as [Hch3 Hb].
    all: rewrite (is_continuation_byte_range ch3 Hch3).
    all: destruct (N.leb_spec 0x80 ch3);
      [| marker_step [ch; ch2] (ch3 :: s3)
           ltac:(left; apply begins_scalar_2_of_3; lia)].
    all: destruct (N.ltb_spec ch3 0xC0);
      [| marker_step [ch; ch2] (ch3 :: s3)
           ltac:(left; apply begins_scalar_2_of_3; lia)].
    all: cbn [negb andb]; left; exists (decode3 ch ch2 ch3), s3.
    all: destruct (well_formed_3 ch ch2 ch3) as [Hs He]; [lia.. |].
    all: split; [exact Hs |]; split; [now rewrite He | reflexivity]. }
  destruct (N.ltb_spec ch 0xF5);
    [| marker_step [ch] s1 ltac:(right; reflexivity)].
  destruct s1 as [| ch2 s2];
    [marker_step [ch] (@nil N) ltac:(left; apply begins_scalar_1; lia) |].
  apply Forall_cons in Hb as [Hch2 Hb].
  rewrite (is_continuation_byte_range ch2 Hch2). unfold bad_second_of_4.
  destruct (N.leb_spec 0x80 ch2);
    [| marker_step [ch] (ch2 :: s2) ltac:(left; apply begins_scalar_1; lia)].
  destruct (N.ltb_spec ch2 0xC0);
    [| marker_step [ch] (ch2 :: s2) ltac:(left; apply begins_scalar_1; lia)].
  cbn [negb andb orb].
  destruct (N.ltb_spec ch2 0x90);
    [destruct (N.eqb_spec ch 0xF0) | destruct (N.eqb_spec ch 0xF4)];
    try (marker_step [ch] (ch2 :: s2)
           ltac:(left; apply begins_scalar_1; lia); fail).
  all: destruct s2 as [| ch3 s3];
    [marker_step [ch; ch2] (@nil N)
       ltac:(left; apply begins_scalar_2_of_4; lia) |].
  all: apply Forall_cons in Hb as [Hch3 Hb].
  all: rewrite (is_continuation_byte_range ch3 Hch3).
  all: destruct (N.leb_spec 0x80 ch3);
    [| marker_step [ch; ch2] (ch3 :: s3)
         ltac:(left; apply begins_scalar_2_of_4; lia)].
  all: destruct (N.ltb_spec ch3 0xC0);
    [| marker_step [ch; ch2] (ch3 :: s3)
         ltac:(left; apply begins_scalar_2_of_4; lia)].
  all: cbn [negb andb].
  all: destruct s3 as [| ch4 s4];
    [marker_step [ch; ch2; ch3] (@nil N)
       ltac:(left; apply begins_scalar_3_of_4; lia) |].
  all: apply Forall_cons in Hb as [Hch4 Hb].
  all: rewrite (is_continuation_byte_range ch4 Hch4).
  all: destruct (N.leb_spec 0x80 ch4);
    [| marker_step [ch; ch2; ch3] (ch4 :: s4)
         ltac:(left; apply begins_scalar_3_of_4; lia)].
  all: destruct (N.ltb_spec ch4 0xC0);
    [| marker_step [ch; ch2; ch3] (ch4 :: s4)
         ltac:(left; apply begins_scalar_3_of_4; lia)].
  all: cbn [negb andb]; left; exists (decode4 ch ch2 ch3 ch4), s4.
  all: destruct (well_formed_4 ch ch2 ch3 ch4) as [Hs He]; [lia.. |].
  all: split; [exact Hs |]; split; [now rewrite He | reflexivity].
Qed.


(** The decoder computes a lenient decoding of every byte sequence. *)
Lemma decode_is_lenient (n : nat) :
  forall bs : list N,
    (length bs <= n)%nat ->
    Forall (fun b => b < 256) bs ->
    lenient_decoding bs (utf8_decode_replace bs).
Proof.
  induction n as [| n IH]; intros bs Hlen Hb.
  - destruct bs; [constructor | cbn in Hlen; lia].
  - destruct bs as [| ch s1]; [constructor |].
    destruct (decode_step_lenient (ch :: s1) Hb ltac:(discriminate))
      as [(c & rest & Hc & Hbs & E) | (bad & rest & Hbs & Hill & E)];
      rewrite E, Hbs; rewrite Hbs in Hb, Hlen;
      apply Forall_app in Hb as [_ Hb]; rewrite length_app in Hlen.
    + apply lenient_scalar; [exact Hc |]. apply IH; [| exact Hb].
      pose proof (utf8_encode_char_nonempty c).
      destruct (utf8_encode_char c); [congruence | cbn [length] in Hlen; lia].
    + apply lenient_marker; [exact Hill |]. apply IH; [| exact Hb].
      destruct Hill as [Hne _].
      destruct bad; [congruence | cbn [length] in Hlen; lia].
Qed.

(** Encodings of scalars are prefix-free. *)
Lemma utf8_encode_char_prefix_free (c c' : N) (rest rest' : list N) :
  is_scalar c -> is_scalar c' ->
  utf8_encode_char c ++ rest = utf8_encode_char c' ++ rest' ->
  c = c' /\ rest = rest'.
Proof.
  intros Hc Hc' E.
  pose proof (f_equal utf8_decode_replace E) as D.
  rewrite (decode_encode_char c rest Hc), (decode_encode_char c' rest' Hc') in D.
  injection D as -> _. split; [reflexivity |]. now apply app_inv_head in E.
Qed.

Lemma begins_scalar_prefix (p q : list N) :
  begins_scalar (p ++ q) -> begins_scalar p.
Proof.
  intros (c & tail & Hc & E). exists c, (q ++ tail).
  split; [exact Hc |]. now rewrite app_assoc.
Qed.

(** The ill-formed head of an input is unique. *)
Lemma ill_formed_head_longer (bad rest bad' rest' k : list N) :
  ill_formed_head bad rest -> ill_formed_head bad' rest' ->
  bad' = bad ++ k -> rest = k ++ rest' -> k = [].
Proof.
  intros (Hne & _ & _ & Hmax) (_ & _ & Hb' & _) -> ->.
  destruct k as [| x k']; [reflexivity |]. exfalso.
  apply (Hmax x (k' ++ rest') eq_refl).
  destruct Hb' as [Hb' | Hlen].
  - apply (begins_scalar_prefix _ k').
    now rewrite <- app_assoc.
  - rewrite length_app in Hlen. cbn [length] in Hlen.
    destruct bad; [congruence | cbn [length] in Hlen; lia].
Qed.

Lemma ill_formed_head_unique (bad rest bad' rest' : list N) :
  ill_formed_head bad rest -> ill_formed_head bad' rest' ->
  bad ++ rest = bad' ++ rest' -> bad = bad' /\ rest = rest'.
Proof.
  intros H H' E.
  apply app_eq_inv in E as [(k & E1 & E2) | (k & E1 & E2)].
  - pose proof (ill_formed_head_longer _ _ _ _ k H' H E1 E2) as ->.
    rewrite app_nil_r in E1. now subst.
  - pose proof (ill_formed_head_longer _ _ _ _ k H H' E1 E2) as ->.
    rewrite app_nil_r in E1. now subst.
Qed.

(** From [k ++ l = []], in either orientation, [k = []]. *)
Ltac nil_app E :=
  lazymatch type of E with
  | [] = _ => symmetry in E
  | _ => idtac
  end;
  apply app_eq_nil in E as [E _].

(** An input has one lenient decoding. *)
Lemma lenient_decoding_unique (bs : list N) (out1 out2 : str) :
  lenient_decoding bs out1 -> lenient_decoding bs out2 -> out1 = out2.
Proof.
  intros H1. revert out2.
  induction H1 as [| c rest out Hc H IH | bad rest out Hill H IH];
    intros out2 H2.
  - inversion H2 as [| c' rest' out' Hc' H' E | bad' rest' out' Hill' H' E].
    + reflexivity.
    + nil_app E.
      now apply utf8_encode_char_nonempty in E.
    + nil_app E.
      destruct Hill' as [Hne _]. congruence.
  - inversion H2 as [E | c' rest' out' Hc' H' E | bad' rest' out' Hill' H' E].
    + nil_app E.
      now apply utf8_encode_char_nonempty in E.
    + apply utf8_encode_char_prefix_free in E as [-> ->]; [| assumption..].
      f_equal. now apply IH.
    + exfalso. destruct Hill' as (_ & Hns & _). apply Hns.
      rewrite E. exists c, rest. split; [exact Hc | reflexivity].
  - inversion H2 as [E | c' rest' out' Hc' H' E | bad' rest' out' Hill' H' E].
    + nil_app E.
      destruct Hill as [Hne _]. congruence.
    + exfalso. destruct Hill as (_ & Hns & _). apply Hns.
      rewrite <- E. exists c', rest'. split; [exact Hc' | reflexivity].
    + apply (ill_formed_head_unique _ _ _ _ Hill' Hill) in E as [-> ->].
      f_equal. now apply IH.
Qed.

(** The decoder is the lenient decoding. *)
Lemma lenient_decoding_iff (b : bytes) (out : str) :
  lenient_decoding (map Byte.to_N b) out
  <-> out = utf8_decode_replace (map Byte.to_N b).
Proof.
  pose proof (decode_is_lenient _ _ (le_n _) (bytes_below_256 b)) as H.
  split.
  - intros H'. exact (lenient_decoding_unique _ _ _ H' H).
  - now intros ->.
Qed.

(** ** The text of a [.txt] file *)

(** C8. Given the extension [.txt], [process_file] returns a text result for
    every file system and path, so for every byte sequence the file may hold:
    nothing is raised and the error shape is not used. For a file holding the
    bytes [b] the content is the lenient decoding of [b], with newlines
    translated. The lenient decoding is fixed by the bytes alone: [b] is cut
    from left to right into encodings of scalars and ill-formed sequences,
    each encoding gives its scalar and each ill-formed sequence gives one
    replacement marker U+FFFD at its position; there is exactly one such
    decoding. So where [b] is valid UTF-8 the content is the scalars that [b]
    encodes, and where [b] is not valid UTF-8 the content carries the
    marker. *)
Theorem txt_never_fails (L : Libs) (fs : FS) (file_path : str) :
  (exists t, process_file L fs file_path (lit ".txt") = Return (Text t))
  /\ forall b : bytes,
       fs !! file_path = Some b ->
       process_file L fs file_path (lit ".txt") = Return (Text (read_text b))
       /\ (forall s : str,
             Forall is_scalar s -> utf8_encode s = map Byte.to_N b ->
             read_text b = universal_newlines s)
       /\ (~ valid_utf8 b -> REPLACEMENT ∈ read_text b)
       /\ (exists d : str,
             lenient_decoding (map Byte.to_N b) d
             /\ (forall d', lenient_decoding (map Byte.to_N b) d' -> d' = d)
             /\ process_file L fs file_path (lit ".txt")
                = Return (Text (universal_newlines d))).
Proof.
  split; [apply process_file_text |].
  intros b Hb. split; [| split; [| split]].
  - now apply process_file_txt_file.
  - intros s Hs He. unfold read_text. now rewrite (decode_valid b s Hs He).
  - apply read_text_invalid_marker.
  - exists (utf8_decode_replace (map Byte.to_N b)). split; [| split].
    + now apply lenient_decoding_iff.
    + intros d' Hd'. now apply lenient_decoding_iff.
    + now apply process_file_txt_file.
Qed.

Lemma txt_never_fails_witness :
  process_file Sample.libs {[ Sample.path := [x41; xff; x42] ]} Sample.path
    (lit ".txt")
  = Return (Text (read_text [x41; xff; x42]))
  /\ (REPLACEMENT ∈ read_text [x41; xff; x42])
  /\ exists d : str,
       lenient_decoding [0x41; 0xFF; 0x42] d
       /\ process_file Sample.libs {[ Sample.path := [x41; xff; x42] ]}
            Sample.path (lit ".txt")
          = Return (Text (universal_newlines d)).
Proof.
  pose proof (proj2 (txt_never_fails Sample.libs
                       {[ Sample.path := [x41; xff; x42] ]} Sample.path)
                [x41; xff; x42] (lookup_singleton_eq _ _))
    as [H1 [_ [H3 (d & Hd & _ & Hp)]]].
  split; [exact H1 |]. split.
  - apply H3. intros (s & Hs & He).
    pose proof (decode_valid [x41; xff; x42] s Hs He) as Hdec.
    vm_compute in Hdec. subst s. vm_compute in He. discriminate He.
  - exists d. split; [exact Hd | exact Hp].
Defined.


(** ** The endpoint with a fallible write and an optional file name *)

(** [extract_text] is the endpoint on an upload that has a file name and
    whose temporary copy is written without error. *)
Lemma extract_text_full_named (L : Libs) (fs : FS) (temp_name : str)
  (file : UploadFile) :
  extract_text L fs temp_name file
  = extract_text_full L fs temp_name (Some (filename file)) (read file)
      (fun _ => Return ()).
Proof. unfold extract_text, extract_text_full. now destruct (read file). Qed.

(** X2. An upload that can be read, whose temporary copy is written without
    error and that has a file name is always answered with a JSON body of
    the shape [{"text": ...}], for every name and every content: no
    [HTTPException] is raised and the key "error" is never sent. *)
Theorem extract_text_readable_upload
  (L : Libs) (fs : FS) (temp_name name : str) (read : result bytes)
  (write : bytes -> result ()) (contents : bytes) :
  read = Return contents ->
  write contents = Return () ->
  exists t, (extract_text_full L fs temp_name (Some name) read write).1
            = JSON (Text t).
Proof.
  intros -> Hw. unfold extract_text_full. rewrite Hw.
  destruct (process_file_text L (<[temp_name := contents]> (<[temp_name := []]> fs))
              temp_name (lower (unicode_lower L) (splitext name).2)) as [t Ht].
  exists t. now rewrite Ht.
Qed.

Lemma extract_text_readable_upload_witness :
  exists t,
    (extract_text_full Sample.libs Sample.disk Sample.path
       (Some (lit "notes.txt")) (Return [x68; x69]) (fun _ => Return ())).1
    = JSON (Text t).
Proof.
  exact (extract_text_readable_upload Sample.libs Sample.disk Sample.path
           (lit "notes.txt") (Return [x68; x69]) (fun _ => Return ())
           [x68; x69] eq_refl eq_refl).
Defined.

(** X3. The endpoint raises an [HTTPException] exactly when a step of its
    [try] raises: reading the upload, writing the temporary file, or taking
    the extension of a missing file name. The status is then 500 and the
    detail is "Error processing file: " followed by the message of that
    exception. *)
Theorem extract_text_http_error
  (L : Libs) (fs : FS) (temp_name : str) (filename : option str)
  (read : result bytes) (write : bytes -> result ())
  (status : N) (detail : str) :
  (extract_text_full L fs temp_name filename read write).1
  = HTTPException status detail
  <-> exists e,
        status = 500
        /\ detail = lit "Error processing file: " ++ exc_str e
        /\ (read = Raise e
            \/ exists contents,
                 read = Return contents
                 /\ (write contents = Raise e
                     \/ (write contents = Return ()
                         /\ filename = None /\ e = splitext_of_None))).
Proof.
  unfold extract_text_full.
  destruct read as [contents | e0].
  2: { cbn [fst]. split.
       - intros [= <- <-]. exists e0. auto.
       - intros (e & -> & -> & [[= ->] | (c & [=] & _)]). reflexivity. }
  destruct (write contents) as [[] | e0] eqn:Hw.
  2: { cbn [fst]. split.
       - intros [= <- <-]. exists e0. split; [reflexivity |].
         split; [reflexivity |]. right. exists contents. auto.
       - intros (e & -> & -> & [[=] | (c & [= <-] & [Hw' | (Hw' & _)])]);
           rewrite Hw in Hw'; [injection Hw' as -> | discriminate Hw'].
         reflexivity. }
  destruct filename as [name |].
  - destruct (process_file_text L
                (<[temp_name := contents]> (<[temp_name := []]> fs)) temp_name
                (lower (unicode_lower L) (splitext name).2)) as [t Ht].
    rewrite Ht. cbn [fst]. split; [discriminate |].
    intros (e & _ & _ & [[=] | (c & [= <-] & [Hw' | (_ & [=] & _)])]).
    rewrite Hw in Hw'. discriminate Hw'.
  - cbn [fst]. split.
    + intros [= <- <-]. exists splitext_of_None. split; [reflexivity |].
      split; [reflexivity |]. right. exists contents. auto.
    + intros (e & -> & -> & [[=] | (c & [= <-] & [Hw' | (_ & _ & ->)])]);
        [rewrite Hw in Hw'; discriminate Hw' | reflexivity].
Qed.

(** X18. The endpoint deletes its temporary file on every path of the full
    model too: when the temporary name is fresh, the file system after the
    call is the one before it, whether reading, writing or taking the
    extension failed or not. *)
Theorem extract_text_full_restores_files
  (L : Libs) (fs : FS) (temp_name : str) (filename : option str)
  (read : result bytes) (write : bytes -> result ()) :
  fs !! temp_name = None ->
  (extract_text_full L fs temp_name filename read write).2 = fs.
Proof.
  intros Hfresh. unfold extract_text_full.
  destruct read as [contents | e]; [destruct (write contents) as [[] | e];
                                    [destruct filename |] |]; cbn [snd];
    rewrite ?insert_insert_eq, delete_insert_id by exact Hfresh; reflexivity.
Qed.

Lemma extract_text_full_restores_files_witness :
  (extract_text_full Sample.libs Sample.disk (lit "/tmp/tmpzz99") None
     (Return [x25; x50])
     (fun _ => Raise (Exception (lit "No space left on device")))).2
  = Sample.disk.
Proof.
  apply (extract_text_full_restores_files Sample.libs Sample.disk
           (lit "/tmp/tmpzz99")).
  vm_compute. reflexivity.
Defined.


(** ** The letter case of the extension, for every file name *)

Lemma rfind_app_absent (c : N) (p q : str) :
  c ∉ q -> rfind c (p ++ q) = rfind c p.
Proof.
  intros H. unfold rfind. rewrite rfind_from_app. now apply rfind_from_absent.
Qed.

Lemma rfind_extsep_suffix (root e : str) :
  extsep ∉ e -> rfind extsep (root ++ extsep :: e) = Z.of_nat (length root).
Proof.
  intros H. unfold rfind. rewrite rfind_from_app. cbn [rfind_from].
  rewrite N.eqb_refl. rewrite (rfind_from_absent extsep e _ _ H). lia.
Qed.

(** The scan for a character that is not a dot looks at the root only. *)
Lemma has_non_dot_app (root x : str) (n : nat) :
  forall i : Z,
    (0 <= i)%Z -> (Z.to_nat i + n <= length root)%nat ->
    has_non_dot (root ++ x) i n = has_non_dot root i n.
Proof.
  induction n as [| n IH]; intros i Hi Hlen; [reflexivity |].
  cbn [has_non_dot].
  assert (Hone : slice_one (root ++ x) i = slice_one root i).
  { unfold slice_one. rewrite drop_app_le by lia.
    apply take_app_le. rewrite length_drop. lia. }
  rewrite Hone. rewrite IH by lia. reflexivity.
Qed.

(** Whether a name splits at the dot that ends [root] depends on [root]
    only: any suffix without dots and slashes may follow the dot. *)
Lemma splitext_suffix_irrelevant (root e e' : str) :
  sep ∉ e -> extsep ∉ e -> sep ∉ e' -> extsep ∉ e' ->
  (splitext (root ++ extsep :: e)).2 = extsep :: e ->
  splitext (root ++ extsep :: e') = (root, extsep :: e').
Proof.
  intros Hs Hd Hs' Hd'.
  assert (Hsep : forall x, sep ∉ x ->
                           rfind sep (root ++ extsep :: x) = rfind sep root).
  { intros x Hx. apply rfind_app_absent. apply not_elem_of_cons.
    split; [discriminate | exact Hx]. }
  pose proof (rfind_from_lower_bound sep root 0 (-1) ltac:(lia) ltac:(lia))
    as Hlow. fold (rfind sep root) in Hlow.
  assert (Hscan : forall x,
             (rfind sep root < Z.of_nat (length root))%Z ->
             has_non_dot (root ++ extsep :: x) (rfind sep root + 1)
               (Z.to_nat (Z.of_nat (length root) - (rfind sep root + 1)))
             = has_non_dot root (rfind sep root + 1)
                 (Z.to_nat (Z.of_nat (length root) - (rfind sep root + 1)))).
  { intros x Hlt. apply has_non_dot_app; lia. }
  unfold splitext.
  rewrite (Hsep e Hs), (Hsep e' Hs'),
    (rfind_extsep_suffix root e Hd), (rfind_extsep_suffix root e' Hd').
  destruct (Z.ltb_spec (rfind sep root) (Z.of_nat (length root))) as [Hlt | Hge];
    cbn [andb]; [| discriminate].
  rewrite (Hscan e Hlt), (Hscan e' Hlt).
  destruct (has_non_dot root (rfind sep root + 1)
              (Z.to_nat (Z.of_nat (length root) - (rfind sep root + 1))));
    [| discriminate].
  intros _. unfold slice_to, slice_from. rewrite Nat2Z.id.
  f_equal; [apply take_app_length | apply drop_app_length].
Qed.

Lemma ascii_lower_fixes (x : N) : x < 65 -> ascii_lower x = x.
Proof. unfold ascii_lower. intros H. ltb_cases; cbn [andb]; reflexivity || lia. Qed.

(** A case variant of a suffix without dots and slashes has none either. *)
Lemma case_variant_absent (x : N) (e e' : str) :
  x < 65 -> map ascii_lower e' = map ascii_lower e -> x ∉ e -> x ∉ e'.
Proof.
  intros Hx Hmap Hno Hin.
  apply (map_ascii_lower_absent x e Hx Hno). rewrite <- Hmap.
  apply list_elem_of_fmap. exists x. split; [| exact Hin].
  symmetry. now apply ascii_lower_fixes.
Qed.

(** Replacing the extension of a name by a case variant of it gives a name
    with the same root and the variant as its extension. *)
Lemma splitext_case_variant (name ext' : str) :
  map ascii_lower ext' = map ascii_lower (splitext name).2 ->
  splitext ((splitext name).1 ++ ext') = ((splitext name).1, ext').
Proof.
  intros Hmap.
  destruct (splitext_shape name) as [Hcat [Hnil | (e & He & Hd & Hs)]].
  - rewrite Hnil in Hmap, Hcat. apply map_eq_nil in Hmap as ->.
    rewrite app_nil_r in Hcat |- *. rewrite Hcat.
    apply injective_projections; cbn [fst snd]; assumption.
  - rewrite He in Hmap, Hcat.
    destruct ext' as [| c e']; [discriminate Hmap |].
    cbn [map] in Hmap. injection Hmap as Hc Hmap.
    assert (c = extsep) as ->.
    { apply (ascii_lower_not_letter c extsep); [unfold extsep; lia |].
      rewrite Hc. apply ascii_lower_fixes. unfold extsep. lia. }
    apply (splitext_suffix_irrelevant _ e e' Hs Hd).
    + apply (case_variant_absent sep e e'); [unfold sep; lia | exact Hmap | exact Hs].
    + apply (case_variant_absent extsep e e');
        [unfold extsep; lia | exact Hmap | exact Hd].
    + now rewrite Hcat.
Qed.

(** C3, as the code has it. [process_file] compares the extension it is
    given exactly; the letter case is removed before, by the endpoint:
    [extract_text] lower-cases the extension of the file name and hands that
    to [process_file]. So for every file name, replacing its ASCII extension
    by any case variant of it leaves the response unchanged, whatever the
    upload holds and whether or not it can be read and written: two uploads
    with the same content whose names differ only in the letter case of the
    extension get the same response, the one [process_file] gives at the
    lower-case extension. *)
Theorem endpoint_ignores_suffix_case
  (L : Libs) (fs : FS) (temp_name name ext' : str)
  (read : result bytes) (write : bytes -> result ()) :
  Forall (fun c => c < 128) (splitext name).2 ->
  Forall (fun c => c < 128) ext' ->
  map ascii_lower ext' = map ascii_lower (splitext name).2 ->
  extract_text_full L fs temp_name (Some name) read write
  = extract_text_full L fs temp_name (Some ((splitext name).1 ++ ext'))
      read write
  /\ forall (contents : bytes) (d : dict),
       read = Return contents ->
       write contents = Return () ->
       process_file L (<[temp_name := contents]> fs) temp_name
         (map ascii_lower (splitext name).2) = Return d ->
       (extract_text_full L fs temp_name (Some name) read write).1 = JSON d.
Proof.
  intros Ha Ha' Hmap.
  assert (Hext : lower (unicode_lower L) (splitext name).2
                 = map ascii_lower (splitext name).2)
    by now apply lower_ascii.
  assert (Hext' : lower (unicode_lower L)
                    (splitext ((splitext name).1 ++ ext')).2
                  = map ascii_lower (splitext name).2).
  { rewrite (splitext_case_variant name ext' Hmap). cbn [snd].
    rewrite lower_ascii by exact Ha'. exact Hmap. }
  split.
  - unfold extract_text_full. now rewrite Hext, Hext'.
  - intros contents d -> Hw Hd. unfold extract_text_full.
    rewrite Hw, Hext, insert_insert_eq, Hd. reflexivity.
Qed.

Lemma endpoint_ignores_suffix_case_witness :
  extract_text_full Sample.libs ∅ Sample.path
    (Some (lit "docs/my.report.PDF")) (Return [x25; x50]) (fun _ => Return ())
  = extract_text_full Sample.libs ∅ Sample.path
      (Some ((splitext (lit "docs/my.report.PDF")).1 ++ lit ".pdf"))
      (Return [x25; x50]) (fun _ => Return ())
  /\ (splitext (lit "docs/my.report.PDF")).1 ++ lit ".pdf"
     = lit "docs/my.report.pdf".
Proof.
  split; [| vm_compute; reflexivity].
  refine (proj1 (endpoint_ignores_suffix_case Sample.libs ∅ Sample.path
                   (lit "docs/my.report.PDF") (lit ".pdf")
                   (Return [x25; x50]) (fun _ => Return ()) _ _ _)).
  - apply (bool_decide_unpack _). vm_compute. exact I.
  - apply (bool_decide_unpack _). vm_compute. exact I.
  - vm_compute. reflexivity.
Defined.
